(** * Scenario execution engine of the [scenario] CLI command

    A shallow embedding of [packages/cli/src/commands/scenario/index.ts]:
    the [scenario run] action (environment selection, mock application,
    provider lifecycle, evaluation, judgment, cleanup) and the counting
    part of the [scenario matrix] action.

    - JavaScript strings are modelled by [string].
    - What the action receives from its collaborators (file system and
      schema, plugin parser, runtime factory, providers, mock engine,
      evaluation engine) and from the platform's [RegExp] is given by a
      record [World]; every call to a collaborator is recorded in a
      trace, in order.  Calls to the logger are left out, except
      [logger.error]; the reporter and the constructors do not throw.
    - [try]/[catch]/[finally] and [process.exit] are modelled by a small
      monad over the local variables of the action: a piece of code
      completes normally, throws, or exits the process.  [process.exit]
      ends the process at once, so nothing runs after it, not even an
      enclosing [finally] block. *)

From Stdlib Require Import List String Ascii Bool Arith Lia.
Import ListNotations.

Local Open Scope string_scope.
Local Open Scope list_scope.

(** ** JavaScript strings *)

Module JsString.

(** The double quote character, as it occurs inside template literals. *)
Definition dquote : string := String "034"%char EmptyString.

(** [`${b}`] for a boolean [b]. *)
Definition ofBool (b : bool) : string := if b then "true" else "false".

(** [startsAt s v]: the code units of [v] occur in [s] at position 0. *)
Fixpoint startsAt (s v : string) {struct v} : bool :=
  match v with
  | EmptyString => true
  | String c v' =>
      match s with
      | EmptyString => false
      | String d s' => Ascii.eqb c d && startsAt s' v'
      end
  end.

(** [String.prototype.includes]: [s.includes(v)] searches [s] from
    position 0 for an index at which the code units of [v] occur,
    comparing code units for equality (no case folding, no Unicode
    normalization). *)
Fixpoint includes (s v : string) {struct s} : bool :=
  startsAt s v
  || match s with
     | EmptyString => false
     | String _ s' => includes s' v
     end.

End JsString.

(** ** Data model *)

(** An evaluator of a step: [type] selects the kind; [value] is read by
    [string_contains] and [pattern] by [regex_match] (the validated
    scenario provides the field its kind reads). *)
Record Evaluation := {
  ev_type : string;
  ev_value : string;
  ev_pattern : string;
}.

Record Step := {
  st_input : string;
  evaluations : option (list Evaluation);
}.

Record Mock := {
  mock_service : string;
  mock_method : string;
}.

(** An entry of [scenario.plugins]: a bare name or an object with a
    [name] and an optional [enabled] flag. *)
Inductive Plugin :=
| PluginName (name : string)
| PluginConfig (name : string) (enabled : option bool).

Record Scenario := {
  plugins : option (list Plugin);
  environment_type : string;
  setup_mocks : option (list Mock);   (* [scenario.setup?.mocks] *)
  run : list Step;
  judgment_strategy : option string;  (* [scenario.judgment?.strategy] *)
}.

Record ExecutionResult := {
  exitCode : nat;
  stdout : string;
  stderr : string;
}.

Record EvaluationResult := {
  success : bool;
  message : string;
}.

Record PluginResult := {
  valid : bool;
  errors : list string;
  warnings : list string;
}.

(** Opaque handles handed out by the runtime factory. *)
Inductive Runtime := RuntimeHandle.
Inductive Server := ServerHandle.
Inductive AgentId := AgentIdHandle.
Inductive Reporter := ReporterObject.
Inductive MockEngine := MockEngineFor (rt : Runtime).

(** What [runtime.getService(name)] returns, as far as the action looks
    at it: whether [stop] is a function. *)
Record Service := { svc_hasStop : bool }.

Inductive EnvironmentProvider :=
| LocalEnvironmentProvider (server : option Server) (agentId : option AgentId)
| E2BEnvironmentProvider (rt : Runtime) (server : option Server)
    (agentId : option AgentId).

Record Created := {
  c_server : option Server;
  c_runtime : option Runtime;
  c_agentId : option AgentId;
  c_createdServer : bool;
}.

(** ** Exceptions and results of collaborator calls *)

Inductive Error :=
| SyntaxError (msg : string)
| TypeError (msg : string)
| Failure (msg : string).

Definition error_message (e : Error) : string :=
  match e with SyntaxError m | TypeError m | Failure m => m end.

Inductive Result (A : Type) :=
| Ok (a : A)
| Raise (e : Error).
Arguments Ok {A} a.
Arguments Raise {A} e.

Definition rbind {A B} (r : Result A) (k : A -> Result B) : Result B :=
  match r with
  | Ok a => k a
  | Raise e => Raise e
  end.

(** What reading, parsing and validating the scenario file gives. *)
Inductive FileLoad :=
| FileMissing                 (* [fs.existsSync] is false *)
| FileUnreadable (e : Error)  (* [fs.readFileSync] or [yaml.load] throws *)
| FileInvalid                 (* [ScenarioSchema.safeParse] fails *)
| FileValid (sc : Scenario).

(** The collaborators of the action and the platform's [RegExp]. *)
Record World := {
  RegExp : Type;
  (** [new RegExp(pattern)]; [None] when it throws a [SyntaxError] *)
  RegExp_new : string -> option RegExp;
  (** [re.test(text)] on a freshly built [re]: a match anywhere in [text] *)
  RegExp_test : RegExp -> string -> bool;
  scenarioFile : string -> FileLoad;
  PluginParser_parseAndValidate : list Plugin -> Result PluginResult;
  createScenarioServerAndAgent : list string -> Result Created;
  runtime_getService : string -> option Service;
  service_stop : Result unit;
  runtime_close : Result unit;
  server_stop : Result unit;
  MockEngine_applyMocks : list Mock -> Result unit;
  MockEngine_revertMocks : Result unit;
  provider_setup : EnvironmentProvider -> Scenario -> Result unit;
  provider_run : EnvironmentProvider -> Scenario -> Result (list ExecutionResult);
  provider_teardown : EnvironmentProvider -> Result unit;
  EvaluationEngine_runEvaluations :
    list Evaluation -> ExecutionResult -> Result (list EvaluationResult);
}.

(** ** The calls the action makes, in the order it makes them *)

Inductive Event :=
| LogError (msg : string)
| ParseAndValidate (ps : list Plugin)
| ReportStart
| CreateScenarioServerAndAgent (ps : list string)
| NewProvider (p : EnvironmentProvider)
| NewMockEngine
| ApplyMocks (ms : list Mock)
| Setup
| Run
| ReportExecutionResult (r : ExecutionResult)
| NewEvaluationEngine
| RunEvaluations (evs : list Evaluation) (r : ExecutionResult)
| ReportEvaluationResults (rs : list EvaluationResult)
| RevertMocks
| Teardown
| StopService
| CloseRuntime
| StopServer
| ReportFinalResult (verdict : bool).

(** ** The local variables of the action, with the trace of calls *)

Record Vars := {
  provider : option EnvironmentProvider;
  runtime : option Runtime;
  server : option Server;
  agentId : option AgentId;
  createdServer : bool;
  mockEngine : option MockEngine;
  finalStatus : bool;
  reporter : option Reporter;
  trace : list Event;
}.

Definition initialVars : Vars :=
  {| provider := None; runtime := None; server := None; agentId := None;
     createdServer := false; mockEngine := None;
     finalStatus := false; (* Default to fail *)
     reporter := None; trace := [] |}.

Definition set_provider (p : option EnvironmentProvider) (s : Vars) : Vars :=
  {| provider := p; runtime := runtime s; server := server s;
     agentId := agentId s; createdServer := createdServer s;
     mockEngine := mockEngine s; finalStatus := finalStatus s;
     reporter := reporter s; trace := trace s |}.

Definition set_created (c : Created) (s : Vars) : Vars :=
  {| provider := provider s; runtime := c_runtime c; server := c_server c;
     agentId := c_agentId c; createdServer := c_createdServer c;
     mockEngine := mockEngine s; finalStatus := finalStatus s;
     reporter := reporter s; trace := trace s |}.

Definition set_mockEngine (m : option MockEngine) (s : Vars) : Vars :=
  {| provider := provider s; runtime := runtime s; server := server s;
     agentId := agentId s; createdServer := createdServer s;
     mockEngine := m; finalStatus := finalStatus s;
     reporter := reporter s; trace := trace s |}.

Definition set_finalStatus (b : bool) (s : Vars) : Vars :=
  {| provider := provider s; runtime := runtime s; server := server s;
     agentId := agentId s; createdServer := createdServer s;
     mockEngine := mockEngine s; finalStatus := b;
     reporter := reporter s; trace := trace s |}.

Definition set_reporter (r : option Reporter) (s : Vars) : Vars :=
  {| provider := provider s; runtime := runtime s; server := server s;
     agentId := agentId s; createdServer := createdServer s;
     mockEngine := mockEngine s; finalStatus := finalStatus s;
     reporter := r; trace := trace s |}.

Definition add_event (e : Event) (s : Vars) : Vars :=
  {| provider := provider s; runtime := runtime s; server := server s;
     agentId := agentId s; createdServer := createdServer s;
     mockEngine := mockEngine s; finalStatus := finalStatus s;
     reporter := reporter s; trace := trace s ++ [e] |}.

(** ** Control flow: normal completion, exceptions, process exit *)

(** How a piece of the action ends.  [process.exit(code)] ends the
    process at once: no statement after it runs, in particular no
    enclosing [catch] or [finally] block. *)
Inductive Outcome (A : Type) :=
| Normal (a : A)
| Throw (e : Error)
| Exit (code : nat).
Arguments Normal {A} a.
Arguments Throw {A} e.
Arguments Exit {A} code.

Definition M (A : Type) : Type := Vars -> Outcome A * Vars.

Definition ret {A} (a : A) : M A := fun s => (Normal a, s).

Definition bind {A B} (m : M A) (k : A -> M B) : M B :=
  fun s =>
    match m s with
    | (Normal a, s') => k a s'
    | (Throw e, s') => (Throw e, s')
    | (Exit c, s') => (Exit c, s')
    end.

Declare Scope action_scope.
Delimit Scope action_scope with action.
Notation "x <- m ;; k" := (bind m (fun x => k))
  (at level 61, m at next level, right associativity) : action_scope.
Notation "m ;; k" := (bind m (fun _ => k))
  (at level 61, right associativity) : action_scope.
Local Open Scope action_scope.

Definition throw {A} (e : Error) : M A := fun s => (Throw e, s).
Definition process_exit {A} (code : nat) : M A := fun s => (Exit code, s).
Definition read : M Vars := fun s => (Normal s, s).
Definition update (f : Vars -> Vars) : M unit := fun s => (Normal tt, f s).
Definition emit (e : Event) : M unit := update (add_event e).

(** A call to a collaborator: recorded, then its result or exception. *)
Definition call {A} (e : Event) (r : Result A) : M A :=
  emit e ;;
  match r with
  | Ok a => ret a
  | Raise err => throw err
  end.

Definition liftResult {A} (r : Result A) : M A :=
  match r with
  | Ok a => ret a
  | Raise err => throw err
  end.

(** [xs.forEach(f)] *)
Fixpoint forEach {A} (f : A -> M unit) (xs : list A) : M unit :=
  match xs with
  | [] => ret tt
  | x :: xs' => f x ;; forEach f xs'
  end.

(** [try { body } catch { }] *)
Definition tryIgnore (body : M unit) : M unit :=
  fun s =>
    match body s with
    | (Throw _, s') => (Normal tt, s')
    | other => other
    end.

(** [try { body } catch (error) { handler } finally { fin }] *)
Definition tryCatchFinally (body : M unit) (handler : Error -> M unit)
    (fin : M unit) : M unit :=
  fun s =>
    match body s with
    | (Exit c, s1) => (Exit c, s1)
    | (Normal _, s1) => fin s1
    | (Throw e, s1) =>
        match handler e s1 with
        | (Exit c, s2) => (Exit c, s2)
        | (Normal _, s2) => fin s2
        | (Throw e', s2) =>
            match fin s2 with
            | (Normal _, s3) => (Throw e', s3)
            | other => other
            end
        end
    end.

(** ** Evaluation without a runtime (lines 165-197) *)

Section BasicEvaluation.

Variable w : World.

(** The body of the loop over [step.evaluations]: one evaluator applied
    to one execution result. *)
Definition evaluateBasic (evaluation : Evaluation) (result : ExecutionResult)
  : Result EvaluationResult :=
  if String.eqb (ev_type evaluation) "string_contains" then
    let success := JsString.includes (stdout result) (ev_value evaluation) in
    Ok {| success := success;
          message := "Checked if stdout contains " ++ JsString.dquote
                     ++ ev_value evaluation ++ JsString.dquote
                     ++ ". Result: " ++ JsString.ofBool success |}
  else if String.eqb (ev_type evaluation) "regex_match" then
    match RegExp_new w (ev_pattern evaluation) with
    | None =>
        (* [new RegExp] throws; the engine's diagnosis that follows the
           pattern in the message is left out *)
        Raise (SyntaxError ("Invalid regular expression: /"
                            ++ ev_pattern evaluation ++ "/"))
    | Some re =>
        let success := RegExp_test w re (stdout result) in
        Ok {| success := success;
              message := "Checked if stdout matches regex " ++ JsString.dquote
                         ++ ev_pattern evaluation ++ JsString.dquote
                         ++ ". Result: " ++ JsString.ofBool success |}
    end
  else
    (* Unknown evaluator type *)
    Ok {| success := false;
          message := "Unknown evaluator type: '" ++ ev_type evaluation
                     ++ "' (requires runtime)" |}.

(** [for (const evaluation of step.evaluations)], pushing every result
    on [allEvaluationResults]. *)
Fixpoint evaluateAll (evs : list Evaluation) (result : ExecutionResult)
    (allEvaluationResults : list EvaluationResult)
  : Result (list EvaluationResult) :=
  match evs with
  | [] => Ok allEvaluationResults
  | evaluation :: evs' =>
      rbind (evaluateBasic evaluation result) (fun evaluationResult =>
      evaluateAll evs' result (allEvaluationResults ++ [evaluationResult]))
  end.

(** [for (let i = 0; i < results.length; i++)] from index [i], where
    [rest] holds [results[i]], [results[i+1]], ... *)
Fixpoint basicLoop (steps : list Step) (i : nat) (rest : list ExecutionResult)
    (allEvaluationResults : list EvaluationResult)
  : Result (list EvaluationResult) :=
  match rest with
  | [] => Ok allEvaluationResults
  | result :: rest' =>
      match nth_error steps i with
      | None =>
          (* [step] is [undefined]: reading [step.evaluations] throws *)
          Raise (TypeError "undefined is not an object (evaluating 'step.evaluations')")
      | Some step =>
          match evaluations step with
          | Some ((_ :: _) as evs) =>
              rbind (evaluateAll evs result allEvaluationResults)
                    (basicLoop steps (S i) rest')
          | _ => basicLoop steps (S i) rest' allEvaluationResults
          end
      end
  end.

Definition basicEvaluations (steps : list Step) (results : list ExecutionResult)
  : Result (list EvaluationResult) :=
  basicLoop steps 0 results [].

End BasicEvaluation.

(** ** Judgment (lines 204-211) *)

Definition applyJudgment (strategy : option string)
    (allEvaluationResults : list EvaluationResult) : bool :=
  match strategy with
  | Some str =>
      if String.eqb str "all_pass" then
        forallb success allEvaluationResults
      else if String.eqb str "any_pass" then
        existsb success allEvaluationResults
      else
        (* Default to fail for unknown strategies *)
        false
  | None => false
  end.

(** ** Plugin list handed to the runtime factory (lines 83-95) *)

Definition defaultPlugins : list string :=
  [ "@elizaos/plugin-sql"; "@elizaos/plugin-bootstrap";
    "@elizaos/plugin-e2b"; "@elizaos/plugin-openai" ].

(** [p.enabled !== false] *)
Definition plugin_enabled (p : Plugin) : bool :=
  match p with
  | PluginConfig _ (Some false) => false
  | _ => true
  end.

(** [typeof p === 'string' ? p : p.name] *)
Definition plugin_name (p : Plugin) : string :=
  match p with
  | PluginName n => n
  | PluginConfig n _ => n
  end.

Definition scenarioPlugins (scenario : Scenario) : list string :=
  match plugins scenario with
  | Some ps => map plugin_name (filter plugin_enabled ps)
  | None => []
  end.

(** [Array.from(new Set(xs))]: first occurrences, in order. *)
Fixpoint uniqueFrom (seen xs : list string) : list string :=
  match xs with
  | [] => []
  | x :: xs' =>
      if existsb (String.eqb x) seen then uniqueFrom seen xs'
      else x :: uniqueFrom (x :: seen) xs'
  end.

Definition finalPlugins (scenario : Scenario) : list string :=
  uniqueFrom [] (scenarioPlugins scenario ++ defaultPlugins).

(** ** The [scenario run] action (lines 26-249) *)

Section Action.

Variable w : World.
Variable filePath : string.
Variable live : bool.   (* [options.live] *)

(** Lines 39-54; [path.resolve] is left out, the file is named by
    [filePath]. *)
Definition loadScenario : M Scenario :=
  match scenarioFile w filePath with
  | FileMissing =>
      emit (LogError ("Error: File not found at '" ++ filePath ++ "'")) ;;
      process_exit 1
  | FileUnreadable e => throw e
  | FileInvalid =>
      emit (LogError "Scenario file validation failed:") ;;
      process_exit 1
  | FileValid scenario => ret scenario
  end.

(** Lines 56-78. *)
Definition parsePlugins (scenario : Scenario) : M unit :=
  match plugins scenario with
  | Some ((_ :: _) as ps) =>
      pluginResult <- call (ParseAndValidate ps)
                           (PluginParser_parseAndValidate w ps) ;;
      if negb (valid pluginResult) then
        emit (LogError "Plugin validation failed:") ;;
        forEach (fun error => emit (LogError ("  - " ++ error)))
                (errors pluginResult) ;;
        process_exit 1
      else ret tt
  | _ => ret tt
  end.

(** Lines 81-82. *)
Definition startReporter : M unit :=
  update (set_reporter (Some ReporterObject)) ;;
  emit ReportStart.

Definition createServerAndAgent (ps : list string) : M unit :=
  created <- call (CreateScenarioServerAndAgent ps)
                  (createScenarioServerAndAgent w ps) ;;
  update (set_created created).

Definition newProvider (p : EnvironmentProvider) : M unit :=
  emit (NewProvider p) ;;
  update (set_provider (Some p)).

(** Lines 97-124. *)
Definition selectProvider (scenario : Scenario) : M unit :=
  if String.eqb (environment_type scenario) "e2b" then
    createServerAndAgent (finalPlugins scenario) ;;
    s <- read ;;
    match runtime s with
    | None =>
        (* [runtime.getService] on [null] *)
        throw (TypeError "null is not an object (evaluating 'runtime.getService')")
    | Some rt =>
        let hasE2B :=
          match runtime_getService w "e2b" with
          | Some _ => true
          | None => false
          end in
        newProvider (if hasE2B
                     then E2BEnvironmentProvider rt (server s) (agentId s)
                     else LocalEnvironmentProvider (server s) (agentId s))
    end
  else if String.eqb (environment_type scenario) "local" then
    s <- read ;;
    match server s, runtime s, agentId s with
    | Some _, Some _, Some _ => ret tt
    | _, _, _ => createServerAndAgent (finalPlugins scenario)
    end ;;
    s <- read ;;
    newProvider (LocalEnvironmentProvider (server s) (agentId s))
  else
    emit (LogError ("Unsupported environment type: '"
                    ++ environment_type scenario ++ "'")) ;;
    process_exit 1.

(** Lines 126-132: [if (runtime && scenario.setup?.mocks && !options.live)]. *)
Definition initMocks (scenario : Scenario) : M unit :=
  s <- read ;;
  match runtime s, setup_mocks scenario, live with
  | Some rt, Some mocks, false =>
      emit NewMockEngine ;;
      update (set_mockEngine (Some (MockEngineFor rt))) ;;
      call (ApplyMocks mocks) (MockEngine_applyMocks w mocks)
  | _, _, _ => ret tt
  end.

(** [reporter?.reportExecutionResult(result)] *)
Definition reportExecutionResult (result : ExecutionResult) : M unit :=
  s <- read ;;
  match reporter s with
  | Some _ => emit (ReportExecutionResult result)
  | None => ret tt
  end.

(** Lines 134-142. *)
Definition setupAndRun (scenario : Scenario) : M (list ExecutionResult) :=
  s <- read ;;
  match provider s with
  | None => throw (TypeError "null is not an object (evaluating 'provider.setup')")
  | Some p =>
      call Setup (provider_setup w p scenario) ;;
      results <- call Run (provider_run w p scenario) ;;
      forEach reportExecutionResult results ;;
      ret results
  end.

(** Lines 152-160: the loop that delegates to the evaluation engine,
    from index [i], where [rest] holds [results[i]], [results[i+1]], ... *)
Fixpoint runtimeLoop (steps : list Step) (i : nat) (rest : list ExecutionResult)
    (allEvaluationResults : list EvaluationResult)
  : M (list EvaluationResult) :=
  match rest with
  | [] => ret allEvaluationResults
  | result :: rest' =>
      match nth_error steps i with
      | None =>
          throw (TypeError "undefined is not an object (evaluating 'step.evaluations')")
      | Some step =>
          match evaluations step with
          | Some ((_ :: _) as evs) =>
              evaluationResults <-
                call (RunEvaluations evs result)
                     (EvaluationEngine_runEvaluations w evs result) ;;
              runtimeLoop steps (S i) rest'
                          (allEvaluationResults ++ evaluationResults)
          | _ => runtimeLoop steps (S i) rest' allEvaluationResults
          end
      end
  end.

(** Lines 144-198. *)
Definition evaluate (scenario : Scenario) (results : list ExecutionResult)
  : M (list EvaluationResult) :=
  s <- read ;;
  match runtime s with
  | Some _ =>
      emit NewEvaluationEngine ;;
      runtimeLoop (run scenario) 0 results []
  | None => liftResult (basicEvaluations w (run scenario) results)
  end.

(** Lines 200-211. *)
Definition judge (scenario : Scenario)
    (allEvaluationResults : list EvaluationResult) : M unit :=
  s <- read ;;
  match reporter s with
  | Some _ => emit (ReportEvaluationResults allEvaluationResults)
  | None => ret tt
  end ;;
  update (set_finalStatus
            (applyJudgment (judgment_strategy scenario) allEvaluationResults)).

(** Lines 39-142: everything the [try] block does before evaluation. *)
Definition prepareAndRun : M (Scenario * list ExecutionResult) :=
  scenario <- loadScenario ;;
  parsePlugins scenario ;;
  startReporter ;;
  selectProvider scenario ;;
  initMocks scenario ;;
  results <- setupAndRun scenario ;;
  ret (scenario, results).

(** The [try] block (lines 38-211). *)
Definition tryBlock : M unit :=
  sr <- prepareAndRun ;;
  allEvaluationResults <- evaluate (fst sr) (snd sr) ;;
  judge (fst sr) allEvaluationResults.

(** The [catch] block (lines 212-215). *)
Definition catchBlock (error : Error) : M unit :=
  emit (LogError "An error occurred during scenario execution:") ;;
  emit (LogError (error_message error)) ;;
  process_exit 1.

(** Lines 217-221. *)
Definition revertMocksIfApplied : M unit :=
  (* Revert mocks first to ensure clean state *)
  s <- read ;;
  match mockEngine s with
  | Some _ => call RevertMocks (MockEngine_revertMocks w)
  | None => ret tt
  end.

(** Lines 223-226. *)
Definition teardownProvider : M unit :=
  s <- read ;;
  match provider s with
  | Some p => call Teardown (provider_teardown w p)
  | None => ret tt
  end.

(** Lines 227-238. *)
Definition shutdownRuntime : M unit :=
  s <- read ;;
  match runtime s with
  | Some _ =>
      tryIgnore
        (match runtime_getService w "e2b" with
         | Some e2bService =>
             if svc_hasStop e2bService
             then call StopService (service_stop w)
             else ret tt
         | None => ret tt
         end ;;
         call CloseRuntime (runtime_close w))
  | None => ret tt
  end.

(** Lines 239-243. *)
Definition stopCreatedServer : M unit :=
  s <- read ;;
  match server s with
  | Some _ =>
      if createdServer s then tryIgnore (call StopServer (server_stop w))
      else ret tt
  | None => ret tt
  end.

(** Lines 245-247. *)
Definition reportAndExit : M unit :=
  (* Report final result and exit with appropriate code *)
  s <- read ;;
  match reporter s with
  | Some _ => emit (ReportFinalResult (finalStatus s))
  | None => ret tt
  end ;;
  process_exit (if finalStatus s then 0 else 1).

(** The [finally] block (lines 216-248). *)
Definition finallyBlock : M unit :=
  revertMocksIfApplied ;;
  teardownProvider ;;
  shutdownRuntime ;;
  stopCreatedServer ;;
  reportAndExit.

Definition action : Outcome unit * Vars :=
  tryCatchFinally tryBlock catchBlock finallyBlock initialVars.

End Action.

(** ** A regular-expression engine for a fragment of the pattern syntax

    Used to run the model on concrete inputs.  The fragment: literal
    characters, [.], [\d], escaped syntax characters, groups, [|] and the
    quantifiers [*], [+], [?].  On this fragment [compile] rejects what
    [new RegExp] rejects (an unterminated group, an unmatched
    parenthesis, a quantifier with nothing to repeat); patterns outside
    the fragment are rejected too and are not used below. *)

Module RegExpFragment.

Inductive re :=
| Eps
| Chr (c : ascii)
| Any
| Digit
| Seq (a b : re)
| Alt (a b : re)
| Star (a : re).

Definition isDigit (c : ascii) : bool :=
  Nat.leb 48 (nat_of_ascii c) && Nat.leb (nat_of_ascii c) 57.

Definition isLineTerminator (c : ascii) : bool :=
  Ascii.eqb c "010"%char || Ascii.eqb c "013"%char.

Definition isSyntaxChar (c : ascii) : bool :=
  existsb (Ascii.eqb c) (list_ascii_of_string "^$\.*+?()[]{}|").

Fixpoint nullable (r : re) : bool :=
  match r with
  | Eps | Star _ => true
  | Chr _ | Any | Digit => false
  | Seq a b => nullable a && nullable b
  | Alt a b => nullable a || nullable b
  end.

(** What is left of [r] after it has read [c]. *)
Fixpoint deriv (c : ascii) (r : re) : option re :=
  match r with
  | Eps => None
  | Chr d => if Ascii.eqb c d then Some Eps else None
  | Any => if isLineTerminator c then None else Some Eps
  | Digit => if isDigit c then Some Eps else None
  | Seq a b =>
      let left := option_map (fun a' => Seq a' b) (deriv c a) in
      if nullable a then
        match left, deriv c b with
        | Some l, Some r' => Some (Alt l r')
        | Some l, None => Some l
        | None, other => other
        end
      else left
  | Alt a b =>
      match deriv c a, deriv c b with
      | Some a', Some b' => Some (Alt a' b')
      | Some a', None => Some a'
      | None, other => other
      end
  | Star a => option_map (fun a' => Seq a' (Star a)) (deriv c a)
  end.

(** [r] matches a prefix of [s]. *)
Fixpoint matchesPrefix (r : re) (s : string) : bool :=
  nullable r
  || match s with
     | EmptyString => false
     | String c s' =>
         match deriv c r with
         | Some r' => matchesPrefix r' s'
         | None => false
         end
     end.

(** [r] matches somewhere in [s]. *)
Fixpoint test (r : re) (s : string) {struct s} : bool :=
  matchesPrefix r s
  || match s with
     | EmptyString => false
     | String _ s' => test r s'
     end.

Fixpoint parseDisjunction (fuel : nat) (s : string) : option (re * string) :=
  match fuel with
  | 0 => None
  | S fuel' =>
      match parseAlternative fuel' s with
      | Some (a, String "|" rest) =>
          match parseDisjunction fuel' rest with
          | Some (b, rest') => Some (Alt a b, rest')
          | None => None
          end
      | other => other
      end
  end
with parseAlternative (fuel : nat) (s : string) : option (re * string) :=
  match fuel with
  | 0 => None
  | S fuel' =>
      match s with
      | EmptyString | String "|" _ | String ")" _ => Some (Eps, s)
      | _ =>
          match parseTerm fuel' s with
          | Some (t, rest) =>
              match parseAlternative fuel' rest with
              | Some (a, rest') => Some (Seq t a, rest')
              | None => None
              end
          | None => None
          end
      end
  end
with parseTerm (fuel : nat) (s : string) : option (re * string) :=
  match fuel with
  | 0 => None
  | S fuel' =>
      let atom :=
        match s with
        | EmptyString => None
        | String "(" rest =>
            match parseDisjunction fuel' rest with
            | Some (r, String ")" rest') => Some (r, rest')
            | _ => None
            end
        | String "." rest => Some (Any, rest)
        | String "\" (String "d" rest) => Some (Digit, rest)
        | String "\" (String c rest) =>
            if isSyntaxChar c then Some (Chr c, rest) else None
        | String c rest =>
            if isSyntaxChar c then None else Some (Chr c, rest)
        end in
      match atom with
      | Some (r, String "*" rest) => Some (Star r, rest)
      | Some (r, String "+" rest) => Some (Seq r (Star r), rest)
      | Some (r, String "?" rest) => Some (Alt r Eps, rest)
      | other => other
      end
  end.

Definition compile (pattern : string) : option re :=
  match parseDisjunction (4 * String.length pattern + 4) pattern with
  | Some (r, EmptyString) => Some r
  | _ => None
  end.

(** The strings a regular expression denotes. *)
Inductive matches : re -> string -> Prop :=
| MEps : matches Eps EmptyString
| MChr (c : ascii) : matches (Chr c) (String c EmptyString)
| MAny (c : ascii) :
    isLineTerminator c = false -> matches Any (String c EmptyString)
| MDigit (c : ascii) :
    isDigit c = true -> matches Digit (String c EmptyString)
| MSeq (a b : re) (s t : string) :
    matches a s -> matches b t -> matches (Seq a b) (s ++ t)
| MAltL (a b : re) (s : string) : matches a s -> matches (Alt a b) s
| MAltR (a b : re) (s : string) : matches b s -> matches (Alt a b) s
| MStarNil (a : re) : matches (Star a) EmptyString
| MStarApp (a : re) (s t : string) :
    matches a s -> matches (Star a) t -> matches (Star a) (s ++ t).


End RegExpFragment.

(** ** Matrix dimensions *)

Module Matrix.

Inductive Literal :=
| LitString (s : string)
| LitNumber (n : nat)
| LitBool (b : bool).

Record MatrixAxis := {
  parameter : string;
  values : list Literal;
}.

Record MatrixConfig := {
  name : string;
  base_scenario : string;
  runs_per_combination : nat;
  matrix : list MatrixAxis;
}.

Definition ParameterCombination : Type := list (string * Literal).

(** Modelled from the spec: [calculateTotalCombinations] of
    [./src/matrix-schema], which is not among the sources.  The spec:
    the product of [values.length] over all axes, 1 if there are zero
    axes; written as the reduction over [config.matrix] starting at 1. *)
Definition calculateTotalCombinations (config : MatrixConfig) : nat :=
  fold_left (fun total axis => total * List.length (values axis))
            (matrix config) 1.

(** Modelled from the spec: [calculateTotalRuns] of [./src/matrix-schema],
    which is not among the sources.  The spec: [totalCombinations *
    runs_per_combination]. *)
Definition calculateTotalRuns (config : MatrixConfig) : nat :=
  calculateTotalCombinations config * runs_per_combination config.

(** Modelled from the spec: the Cartesian product of the axes' values,
    the last axis varying fastest. *)
Fixpoint combinationsOf (axes : list MatrixAxis) : list ParameterCombination :=
  match axes with
  | [] => [[]]
  | axis :: rest =>
      flat_map (fun v => map (cons (parameter axis, v)) (combinationsOf rest))
               (values axis)
  end.

(** Modelled from the spec: [generateParameterCombinations] of
    [./src/matrix-schema], which is not among the sources. *)
Definition generateParameterCombinations (config : MatrixConfig)
  : list ParameterCombination :=
  combinationsOf (matrix config).

(** The product of the axis sizes, by recursion on the list of axes. *)
Fixpoint productOfSizes (axes : list MatrixAxis) : nat :=
  match axes with
  | [] => 1
  | axis :: rest => List.length (values axis) * productOfSizes rest
  end.

(** Lines 372-381 of the [matrix] action, with [JSON.stringify] as a
    parameter; an empty [--filter] is falsy. *)
Definition filteredCombinations (stringify : ParameterCombination -> string)
    (filter : option string) (combinations : list ParameterCombination)
  : list ParameterCombination :=
  match filter with
  | None | Some EmptyString => combinations
  | Some pat =>
      List.filter (fun combo => JsString.includes (stringify combo) pat)
                  combinations
  end.

(** Lines 399-400: the totals of the execution plan. *)
Definition plannedCombinations (stringify : ParameterCombination -> string)
    (filter : option string) (config : MatrixConfig) : nat :=
  List.length (filteredCombinations stringify filter
                 (generateParameterCombinations config)).

Definition plannedRuns (stringify : ParameterCombination -> string)
    (filter : option string) (config : MatrixConfig) : nat :=
  plannedCombinations stringify filter config * runs_per_combination config.

End Matrix.

(** ** Classes of events *)

Definition isMockEvent (e : Event) : bool :=
  match e with
  | NewMockEngine | ApplyMocks _ | RevertMocks => true
  | _ => false
  end.

(** The calls made from provider selection on: anything that creates,
    uses or evaluates an environment. *)
Definition isEnvironmentEvent (e : Event) : bool :=
  match e with
  | LogError _ | ParseAndValidate _ | ReportStart => false
  | _ => true
  end.

(** The calls made only after the run block has returned its results. *)
Definition isAfterRunEvent (e : Event) : bool :=
  match e with
  | NewEvaluationEngine | RunEvaluations _ _ | ReportEvaluationResults _
  | RevertMocks | Teardown | StopService | CloseRuntime | StopServer
  | ReportFinalResult _ => true
  | _ => false
  end.

Definition isRevertMocks (e : Event) : bool :=
  match e with RevertMocks => true | _ => false end.

Definition isApplyMocks (e : Event) : bool :=
  match e with ApplyMocks _ => true | _ => false end.

Definition isTeardown (e : Event) : bool :=
  match e with Teardown => true | _ => false end.

Definition count (p : Event -> bool) (t : list Event) : nat :=
  List.length (List.filter p t).

(** Every event of the trace satisfies [ok]. *)
Definition allEvents (ok : Event -> bool) (s : Vars) : Prop :=
  forallb ok (trace s) = true.

(** ** Invariants and postconditions of pieces of the action *)

Definition post {A} (P : A -> Prop) (X : nat -> Prop) (o : Outcome A) : Prop :=
  match o with
  | Normal a => P a
  | Throw _ => True
  | Exit c => X c
  end.

(** [m] keeps [I]; when it completes normally its value satisfies [P];
    when it exits the process the exit code satisfies [X]. *)
Definition triple {A} (I : Vars -> Prop) (m : M A)
    (P : A -> Prop) (X : nat -> Prop) : Prop :=
  forall s, I s -> I (snd (m s)) /\ post P X (fst (m s)).

(** ** Concrete worlds and scenarios *)

Module Examples.

Definition withRuntime : Created :=
  {| c_server := Some ServerHandle; c_runtime := Some RuntimeHandle;
     c_agentId := Some AgentIdHandle; c_createdServer := true |}.

Definition withoutRuntime : Created :=
  {| c_server := Some ServerHandle; c_runtime := None;
     c_agentId := Some AgentIdHandle; c_createdServer := true |}.

(** A world whose collaborators all succeed, except as given: what the
    scenario file holds, what the runtime factory returns, and how
    [setup] and [run] of the provider end. *)
Definition world (file : FileLoad) (created : Result Created)
    (setupResult : Result unit) (runResult : Result (list ExecutionResult))
  : World :=
  {| RegExp := RegExpFragment.re;
     RegExp_new := RegExpFragment.compile;
     RegExp_test := RegExpFragment.test;
     scenarioFile := fun _ => file;
     PluginParser_parseAndValidate :=
       fun _ => Ok {| valid := true; errors := []; warnings := [] |};
     createScenarioServerAndAgent := fun _ => created;
     runtime_getService := fun _ => None;
     service_stop := Ok tt;
     runtime_close := Ok tt;
     server_stop := Ok tt;
     MockEngine_applyMocks := fun _ => Ok tt;
     MockEngine_revertMocks := Ok tt;
     provider_setup := fun _ _ => setupResult;
     provider_run := fun _ _ => runResult;
     provider_teardown := fun _ => Ok tt;
     EvaluationEngine_runEvaluations := fun _ _ => Ok [] |}.

Definition stringContains (v : string) : Evaluation :=
  {| ev_type := "string_contains"; ev_value := v; ev_pattern := "" |}.

Definition regexMatch (p : string) : Evaluation :=
  {| ev_type := "regex_match"; ev_value := ""; ev_pattern := p |}.

Definition llmJudge : Evaluation :=
  {| ev_type := "llm_judge"; ev_value := ""; ev_pattern := "" |}.

Definition output (text : string) : ExecutionResult :=
  {| exitCode := 0; stdout := text; stderr := "" |}.

Definition scenarioWith (type : string) (mocks : option (list Mock))
    (evs : list Evaluation) (strategy : string) : Scenario :=
  {| plugins := None;
     environment_type := type;
     setup_mocks := mocks;
     run := [ {| st_input := "echo"; evaluations := Some evs |} ];
     judgment_strategy := Some strategy |}.

Definition someMock : Mock :=
  {| mock_service := "github-service"; mock_method := "readFile" |}.

(** A local scenario with one declared mock. *)
Definition mockedScenario : Scenario :=
  scenarioWith "local" (Some [someMock]) [stringContains "OK"] "all_pass".

(** The mocked scenario in a world whose provider fails in [setup]. *)
Definition setupFails : World :=
  world (FileValid mockedScenario) (Ok withRuntime)
        (Raise (Failure "sandbox unavailable")) (Ok [output "OK"]).

(** The mocked scenario in a world whose provider fails in [run]. *)
Definition runFails : World :=
  world (FileValid mockedScenario) (Ok withRuntime)
        (Ok tt) (Raise (Failure "step crashed")).

(** The mocked scenario in a world where everything succeeds. *)
Definition allSucceeds : World :=
  world (FileValid mockedScenario) (Ok withRuntime) (Ok tt) (Ok [output "OK"]).

(** A scenario whose first evaluator has an invalid pattern, followed by
    a second evaluator, run without a runtime. *)
Definition badPatternScenario : Scenario :=
  scenarioWith "local" None [regexMatch "("; stringContains "OK"] "any_pass".

Definition badPattern : World :=
  world (FileValid badPatternScenario) (Ok withoutRuntime)
        (Ok tt) (Ok [output "OK"]).

(** A scenario with a valid pattern, run without a runtime. *)
Definition goodPatternScenario : Scenario :=
  scenarioWith "local" None [regexMatch "code: \d+"] "all_pass".

Definition goodPattern : World :=
  world (FileValid goodPatternScenario) (Ok withoutRuntime)
        (Ok tt) (Ok [output "code: 42"]).

(** A local scenario of one step with the given evaluators and strategy,
    in a world without a runtime whose step prints [text]. *)
Definition basic (evs : list Evaluation) (strategy : string) (text : string)
  : World :=
  world (FileValid (scenarioWith "local" None evs strategy))
        (Ok withoutRuntime) (Ok tt) (Ok [output text]).

(** The result of [stringContains v] when the outcome is [b]. *)
Definition checked (v : string) (b : bool) : EvaluationResult :=
  {| success := b;
     message := "Checked if stdout contains " ++ JsString.dquote ++ v
                ++ JsString.dquote ++ ". Result: " ++ JsString.ofBool b |}.

(** A scenario of an environment type the action does not know. *)
Definition unknownEnvironment : World :=
  world (FileValid (scenarioWith "unknown" (Some [someMock])
                      [stringContains "OK"] "all_pass"))
        (Ok withRuntime) (Ok tt) (Ok [output "OK"]).

End Examples.

(** ** Predicates on events and states used in the properties *)

Definition beforeEnvironment (e : Event) : bool := negb (isEnvironmentEvent e).

Definition notMockEvent (e : Event) : bool := negb (isMockEvent e).

(** The runtime factory never returns a runtime. *)
Definition noRuntime (w : World) : Prop :=
  forall ps c, createScenarioServerAndAgent w ps = Ok c -> c_runtime c = None.

Definition mockFree (w : World) (s : Vars) : Prop :=
  allEvents notMockEvent s
  /\ mockEngine s = None
  /\ (noRuntime w -> runtime s = None).

Definition beforeEvaluation (e : Event) : bool := negb (isAfterRunEvent e).

(** Evaluation without a runtime produces a result list whose first
    entry is a failed result: what recording a failing first evaluator
    and going on with the others would give. *)
Definition invalidPatternRecorded (w : World) (steps : list Step)
    (results : list ExecutionResult) : Prop :=
  exists failed others,
    basicEvaluations w steps results = Ok (failed :: others)
    /\ success failed = false.

Definition isCleanupEvent (e : Event) : bool :=
  match e with
  | RevertMocks | Teardown | StopService | CloseRuntime | StopServer
  | ReportFinalResult _ => true
  | _ => false
  end.

Definition beforeCleanup (e : Event) : bool := negb (isCleanupEvent e).

(** The local variables of the action without the trace. *)
Definition locals (s : Vars) :=
  (provider s, runtime s, server s, agentId s, createdServer s,
   mockEngine s, finalStatus s, reporter s).

(** Nothing is cleaned up inside the [try] block, and [applyMocks] is
    called only on a mock engine stored in [mockEngine]. *)
Definition tryInvariant (s : Vars) : Prop :=
  allEvents beforeCleanup s
  /\ (mockEngine s = None -> existsb isApplyMocks (trace s) = false).

(** After [revertMocks] has been called at trace [t0]: it is not called
    again. *)
Definition revertedAt (t0 : list Event) (s : Vars) : Prop :=
  exists after,
    trace s = t0 ++ RevertMocks :: after
    /\ existsb isRevertMocks after = false.

(** ** Evaluators and results as the evaluation loops pair them *)

(** [step.evaluations], an absent list read as empty. *)
Definition stepEvaluations (step : Step) : list Evaluation :=
  match evaluations step with
  | Some evs => evs
  | None => []
  end.

(** The evaluators of the steps, each with the execution result of its
    step, in step order and, within a step, in declaration order. *)
Definition pairsOf (steps : list Step) (results : list ExecutionResult)
  : list (Evaluation * ExecutionResult) :=
  flat_map (fun sr => map (fun ev => (ev, snd sr)) (stepEvaluations (fst sr)))
           (combine steps results).

(** The steps that declare at least one evaluator, each with the
    execution result of the step, in step order. *)
Definition delegated (steps : list Step) (results : list ExecutionResult)
  : list (list Evaluation * ExecutionResult) :=
  flat_map (fun sr => match stepEvaluations (fst sr) with
                      | [] => []
                      | evs => [(evs, snd sr)]
                      end)
           (combine steps results).

(** ** More classes of events *)

Definition isLogError (e : Event) : bool :=
  match e with LogError _ => true | _ => false end.

(** The calls made before a provider exists. *)
Definition beforeProvider (e : Event) : bool :=
  match e with
  | LogError _ | ParseAndValidate _ | ReportStart
  | CreateScenarioServerAndAgent _ => true
  | _ => false
  end.

Definition isRunEvent (e : Event) : bool :=
  match e with
  | Setup | Run | ReportExecutionResult _ => true
  | _ => false
  end.

Definition beforeSetup (e : Event) : bool := negb (isRunEvent e).

Definition hasService (w : World) (name : string) : bool :=
  match runtime_getService w name with
  | Some _ => true
  | None => false
  end.

(** The providers the action may create for a scenario: the sandboxed
    one only for type [e2b] with the [e2b] service present, the local
    one for type [local] and for type [e2b] without the service. *)
Definition providerAllowed (w : World) (scenario : Scenario) (e : Event)
  : bool :=
  match e with
  | NewProvider (E2BEnvironmentProvider _ _ _) =>
      String.eqb (environment_type scenario) "e2b" && hasService w "e2b"
  | NewProvider (LocalEnvironmentProvider _ _) =>
      String.eqb (environment_type scenario) "local"
      || (String.eqb (environment_type scenario) "e2b"
          && negb (hasService w "e2b"))
  | _ => true
  end.

(** No provider without a runtime, and nothing set up or run so far. *)
Definition notSetUp (s : Vars) : Prop :=
  allEvents beforeSetup s /\ (runtime s = None -> provider s = None).

(** No runtime and no provider, and only the calls that precede one. *)
Definition withoutProvider (s : Vars) : Prop :=
  allEvents beforeProvider s /\ runtime s = None /\ provider s = None.

(** ** The [scenario matrix] action (lines 259-421) *)

Module MatrixAction.

Import Matrix.

(** The object [validationResult.error.format()] gives: the messages of
    a node in [_errors], and one nested object per other key, in key
    order. *)
Inductive ErrorTree :=
| ErrorNode (_errors : list string) (fields : ErrorFields)
with ErrorFields :=
| NoField
| Field (key : string) (sub : ErrorTree) (rest : ErrorFields).

Record Options := {
  dryRun : bool;
  parallel : string;
  filter : option string;
  verbose : bool;
}.

(** What the action logs, by content.  Of [logger.info] only the lines
    that carry computed values are kept; the decorations of the messages
    are left out. *)
Inductive LogLine :=
| ErrorLine (msg : string)
| Analysis (axes totalCombinations totalRuns : nat)
| Axis (index : nat) (parameter : string) (count : nat)
| Combination (index : nat) (combo : ParameterCombination)
| Filtered (pattern : string) (kept : nat)
| LargeMatrixWarning (totalRuns : nat)
| DryRunComplete
| ExecutionPlan (parallel : string) (combinations runs : nat).

(** What reading, parsing and validating the configuration file gives. *)
Inductive ConfigLoad :=
| ConfigMissing                   (* [fs.existsSync] is false *)
| ConfigUnreadable (e : Error)    (* [fs.readFileSync] or the validator throws *)
| ConfigYamlError (e : Error)     (* [yaml.load] throws *)
| ConfigInvalid (errors : ErrorTree)
| ConfigValid (config : MatrixConfig).

(** The collaborators of the action; the functions of
    [./src/matrix-schema] are parameters. *)
Record MatrixWorld := {
  configFile : string -> ConfigLoad;
  totalCombinationsOf : MatrixConfig -> Result nat;
  totalRunsOf : MatrixConfig -> Result nat;
  baseScenarioExists : string -> bool;
  combinationsOf : MatrixConfig -> Result (list ParameterCombination);
  stringify : ParameterCombination -> string;   (* [JSON.stringify] *)
}.

(** [path ? `${path}.${key}` : key] *)
Definition childPath (path key : string) : string :=
  match path with
  | EmptyString => key
  | _ => path ++ "." ++ key
  end.

(** Lines 304-317: the messages of a node, then the nested objects in
    key order. *)
Fixpoint formatErrors (obj : ErrorTree) (path : string) : list LogLine :=
  match obj with
  | ErrorNode errs fields =>
      map (fun error => ErrorLine ("   " ++ path ++ ": " ++ error)) errs
      ++ formatFields fields path
  end
with formatFields (fields : ErrorFields) (path : string) : list LogLine :=
  match fields with
  | NoField => []
  | Field key sub rest =>
      formatErrors sub (childPath path key) ++ formatFields rest path
  end.

(** [xs.forEach((x, index) => f(index + 1, x))] from position [index]. *)
Fixpoint numbered {A B} (f : nat -> A -> B) (index : nat) (xs : list A)
  : list B :=
  match xs with
  | [] => []
  | x :: xs' => f (S index) x :: numbered f (S index) xs'
  end.

(** Lines 329-350. *)
Definition analysisLines (config : MatrixConfig)
    (totalCombinations totalRuns : nat) : list LogLine :=
  Analysis (List.length (matrix config)) totalCombinations totalRuns
  :: numbered (fun index axis =>
                 Axis index (parameter axis) (List.length (values axis)))
              0 (matrix config).

(** Lines 372-381: the log of the filter, when one is given. *)
Definition filterLines (options : Options) (kept : nat) : list LogLine :=
  match filter options with
  | None | Some EmptyString => []
  | Some pat => [Filtered pat kept]
  end.

(** The [try] block (lines 272-410): what it logs and how it ends. *)
Definition tryBlock (mw : MatrixWorld) (configPath : string)
    (options : Options) : list LogLine * Outcome unit :=
  match configFile mw configPath with
  | ConfigMissing =>
      ([ErrorLine ("Error: Matrix configuration file not found at '"
                   ++ configPath ++ "'")], Exit 1)
  | ConfigUnreadable e => ([], Throw e)
  | ConfigYamlError e =>
      ([ErrorLine "Error: Failed to parse YAML configuration file:";
        ErrorLine (error_message e)], Exit 1)
  | ConfigInvalid errors =>
      (ErrorLine "Matrix configuration validation failed:"
       :: formatErrors errors "", Exit 1)
  | ConfigValid matrixConfig =>
      match totalCombinationsOf mw matrixConfig with
      | Raise e => ([], Throw e)
      | Ok totalCombinations =>
      match totalRunsOf mw matrixConfig with
      | Raise e => ([], Throw e)
      | Ok totalRuns =>
          let analysis :=
            analysisLines matrixConfig totalCombinations totalRuns in
          if negb (baseScenarioExists mw (base_scenario matrixConfig)) then
            (analysis
             ++ [ErrorLine ("Error: Base scenario file not found at '"
                            ++ base_scenario matrixConfig ++ "'")], Exit 1)
          else
            match combinationsOf mw matrixConfig with
            | Raise e => (analysis, Throw e)
            | Ok combinations =>
                let listing :=
                  if verbose options || dryRun options
                  then numbered Combination 0 combinations
                  else [] in
                let filteredCombinations :=
                  Matrix.filteredCombinations (stringify mw) (filter options)
                    combinations in
                let filtering :=
                  filterLines options (List.length filteredCombinations) in
                let warning :=
                  if Nat.ltb 50 totalRuns
                  then [LargeMatrixWarning totalRuns]
                  else [] in
                if dryRun options then
                  (analysis ++ listing ++ filtering ++ warning
                   ++ [DryRunComplete], Exit 0)
                else
                  (analysis ++ listing ++ filtering ++ warning
                   ++ [ExecutionPlan (parallel options)
                         (List.length filteredCombinations)
                         (List.length filteredCombinations
                          * runs_per_combination matrixConfig)],
                   Exit 0)
            end
      end
      end
  end.

(** The [catch] block (lines 412-419). *)
Definition catchBlock (options : Options) (error : Error) : list LogLine :=
  [ErrorLine "An error occurred during matrix analysis:";
   ErrorLine (error_message error)]
  ++ (if verbose options then [ErrorLine "Stack trace:"] else []).

Definition action (mw : MatrixWorld) (configPath : string)
    (options : Options) : list LogLine * Outcome unit :=
  match tryBlock mw configPath options with
  | (logs, Throw e) => (logs ++ catchBlock options e, Exit 1)
  | other => other
  end.

(** The messages of an error object with the keys that lead to each, in
    the order [formatErrors] visits them. *)
Fixpoint errorsOf (obj : ErrorTree) (keys : list string)
  : list (list string * string) :=
  match obj with
  | ErrorNode errs fields =>
      map (fun error => (keys, error)) errs ++ errorsOfFields fields keys
  end
with errorsOfFields (fields : ErrorFields) (keys : list string)
  : list (list string * string) :=
  match fields with
  | NoField => []
  | Field key sub rest =>
      errorsOf sub (keys ++ [key]) ++ errorsOfFields rest keys
  end.

(** Every key of the error object is a non-empty string. *)
Fixpoint keysNonEmpty (obj : ErrorTree) : bool :=
  match obj with
  | ErrorNode _ fields => fieldsNonEmpty fields
  end
with fieldsNonEmpty (fields : ErrorFields) : bool :=
  match fields with
  | NoField => true
  | Field key sub rest =>
      negb (String.eqb key "") && keysNonEmpty sub && fieldsNonEmpty rest
  end.

(** A configuration with one bad axis: what the validator reports. *)
Definition sampleErrors : ErrorTree :=
  ErrorNode []
    (Field "matrix"
       (ErrorNode ["Matrix must have at least one axis"]
          (Field "0"
             (ErrorNode []
                (Field "values" (ErrorNode ["Values must not be empty"] NoField)
                   NoField))
             NoField))
       (Field "runs_per_combination" (ErrorNode ["Expected number"] NoField)
          NoField)).

Definition sampleConfig (runs : nat) : MatrixConfig :=
  {| name := "sweep";
     base_scenario := "base.scenario.yaml";
     runs_per_combination := runs;
     matrix :=
       [ {| parameter := "character.llm.model";
            values := [LitString "a"; LitString "b"; LitString "c"] |};
         {| parameter := "run[0].input";
            values := [LitNumber 1; LitNumber 2; LitNumber 3; LitNumber 4] |} ] |}.

(** A serialization of combinations that shows the string values. *)
Definition showCombination (combo : ParameterCombination) : string :=
  String.concat ","
    (map (fun kv => match snd kv with
                    | LitString s => (fst kv ++ "=" ++ s)%string
                    | LitNumber _ => (fst kv ++ "=#")%string
                    | LitBool b => (fst kv ++ "=" ++ JsString.ofBool b)%string
                    end) combo).

(** A world that holds the configuration [config] and whose helpers are
    the functions of [Matrix]. *)
Definition sampleWorld (config : MatrixConfig) : MatrixWorld :=
  {| configFile := fun _ => ConfigValid config;
     totalCombinationsOf := fun c => Ok (calculateTotalCombinations c);
     totalRunsOf := fun c => Ok (calculateTotalRuns c);
     baseScenarioExists := fun _ => true;
     combinationsOf := fun c => Ok (generateParameterCombinations c);
     stringify := showCombination |}.

End MatrixAction.

(** * Properties *)

(** ** [String.prototype.includes] is the substring relation *)

Lemma startsAt_app (v post : string) :
  JsString.startsAt (v ++ post) v = true.
Proof.
  induction v as [|c v IH]; simpl; [reflexivity|].
  now rewrite Ascii.eqb_refl, IH.
Qed.

Lemma startsAt_inv (s v : string) :
  JsString.startsAt s v = true -> exists post, s = (v ++ post)%string.
Proof.
  revert s; induction v as [|c v IH]; intros s H; simpl in *.
  - now exists s.
  - destruct s as [|d s]; [discriminate|].
    apply andb_true_iff in H as [Hc Hs].
    apply Ascii.eqb_eq in Hc; subst d.
    destruct (IH _ Hs) as [post ->].
    now exists post.
Qed.

Lemma includes_head (s v : string) :
  JsString.startsAt s v = true -> JsString.includes s v = true.
Proof. destruct s; simpl; intros ->; reflexivity. Qed.

Lemma includes_app (pre v post : string) :
  JsString.includes (pre ++ v ++ post) v = true.
Proof.
  induction pre as [|c pre IH].
  - apply includes_head. exact (startsAt_app v post).
  - simpl. rewrite IH. apply orb_true_r.
Qed.

Lemma includes_inv (s v : string) :
  JsString.includes s v = true ->
  exists pre post, s = (pre ++ v ++ post)%string.
Proof.
  induction s as [|c s IH]; simpl; intros H.
  - rewrite orb_false_r in H.
    destruct (startsAt_inv _ _ H) as [post E].
    exists EmptyString, post. exact E.
  - apply orb_true_iff in H as [H|H].
    + destruct (startsAt_inv _ _ H) as [post E].
      exists EmptyString, post. exact E.
    + destruct (IH H) as (pre & post & ->).
      exists (String c pre), post. reflexivity.
Qed.

Lemma includes_spec (s v : string) :
  JsString.includes s v = true <->
  exists pre post, s = (pre ++ v ++ post)%string.
Proof.
  split; [apply includes_inv|].
  intros (pre & post & ->). apply includes_app.
Qed.

(** The comparison is on code units: no case folding. *)
Example includes_is_case_sensitive :
  JsString.includes "hello world" "world" = true
  /\ JsString.includes "hello world" "World" = false
  /\ JsString.includes "hello world" "xyz" = false.
Proof. repeat split. Qed.

(** ** Evaluators that need no runtime *)

(** C7. A [string_contains] evaluator yields a result, and the result
    succeeds exactly when the configured value occurs in the captured
    output as it stands, code unit by code unit; the message names the
    value and the outcome. *)
Theorem string_contains_success (w : World) (evaluation : Evaluation)
    (result : ExecutionResult) :
  ev_type evaluation = "string_contains" ->
  exists res,
    evaluateBasic w evaluation result = Ok res
    /\ (success res = true
        <-> exists pre post,
              stdout result = (pre ++ ev_value evaluation ++ post)%string)
    /\ message res
       = ("Checked if stdout contains " ++ JsString.dquote
          ++ ev_value evaluation ++ JsString.dquote
          ++ ". Result: " ++ JsString.ofBool (success res))%string.
Proof.
  intros Htype. unfold evaluateBasic. rewrite Htype. simpl.
  eexists. split; [reflexivity|]. simpl. split; [|reflexivity].
  apply includes_spec.
Qed.

Lemma string_contains_success_witness :
  exists res,
    evaluateBasic Examples.goodPattern (Examples.stringContains "world")
                  (Examples.output "hello world") = Ok res
    /\ (success res = true
        <-> exists pre post, "hello world" = (pre ++ "world" ++ post)%string)
    /\ message res
       = ("Checked if stdout contains " ++ JsString.dquote
          ++ "world" ++ JsString.dquote
          ++ ". Result: " ++ JsString.ofBool (success res))%string.
Proof.
  apply (string_contains_success Examples.goodPattern
           (Examples.stringContains "world") (Examples.output "hello world")).
  reflexivity.
Defined.

(** C8. Without a runtime, an evaluator of any kind other than
    [string_contains] and [regex_match] yields the failed result that
    says a runtime is required; it does not throw, and the evaluators
    after it are still evaluated. *)
Theorem unknown_evaluator_requires_runtime (w : World)
    (evaluation : Evaluation) (result : ExecutionResult) :
  ev_type evaluation <> "string_contains" ->
  ev_type evaluation <> "regex_match" ->
  let failed :=
    {| success := false;
       message := ("Unknown evaluator type: '" ++ ev_type evaluation
                   ++ "' (requires runtime)")%string |} in
  evaluateBasic w evaluation result = Ok failed
  /\ forall evs acc,
       evaluateAll w (evaluation :: evs) result acc
       = evaluateAll w evs result (acc ++ [failed]).
Proof.
  intros Hsc Hre failed.
  assert (E : evaluateBasic w evaluation result = Ok failed).
  { unfold evaluateBasic.
    destruct (String.eqb_spec (ev_type evaluation) "string_contains");
      [contradiction|].
    destruct (String.eqb_spec (ev_type evaluation) "regex_match");
      [contradiction|].
    reflexivity. }
  split; [exact E|].
  intros evs acc. simpl. rewrite E. reflexivity.
Qed.

Lemma unknown_evaluator_requires_runtime_witness :
  evaluateBasic Examples.goodPattern Examples.llmJudge (Examples.output "OK")
  = Ok {| success := false;
          message := "Unknown evaluator type: 'llm_judge' (requires runtime)" |}
  /\ forall evs acc,
       evaluateAll Examples.goodPattern (Examples.llmJudge :: evs)
                   (Examples.output "OK") acc
       = evaluateAll Examples.goodPattern evs (Examples.output "OK")
           (acc ++ [ {| success := false;
                        message := "Unknown evaluator type: 'llm_judge' (requires runtime)" |} ]).
Proof.
  apply (unknown_evaluator_requires_runtime Examples.goodPattern
           Examples.llmJudge (Examples.output "OK")); discriminate.
Defined.

(** ** Rules for [triple] *)

Section TripleRules.

Variable I : Vars -> Prop.
Variable X : nat -> Prop.

Lemma triple_ret {A} (a : A) (P : A -> Prop) :
  P a -> triple I (ret a) P X.
Proof. intros HP s Hs. split; assumption. Qed.

Lemma triple_throw {A} (e : Error) (P : A -> Prop) :
  triple I (throw e) P X.
Proof. intros s Hs. split; [assumption|exact Logic.I]. Qed.

Lemma triple_exit {A} (c : nat) (P : A -> Prop) :
  X c -> triple I (process_exit c) P X.
Proof. intros HX s Hs. split; assumption. Qed.

Lemma triple_bind {A B} (m : M A) (k : A -> M B)
    (P : A -> Prop) (Q : B -> Prop) :
  triple I m P X ->
  (forall a, P a -> triple I (k a) Q X) ->
  triple I (bind m k) Q X.
Proof.
  intros Hm Hk s Hs. unfold bind.
  destruct (Hm s Hs) as [HI HP].
  destruct (m s) as [[a|e|c] s']; simpl in *.
  - exact (Hk a HP s' HI).
  - split; [assumption|exact Logic.I].
  - split; assumption.
Qed.

Lemma triple_weaken {A} (m : M A) (P Q : A -> Prop) :
  triple I m P X -> (forall a, P a -> Q a) -> triple I m Q X.
Proof.
  intros Hm HPQ s Hs. destruct (Hm s Hs) as [HI HP]. split; [assumption|].
  destruct (fst (m s)); simpl in *; auto.
Qed.

Lemma triple_bind_any {A B} (m : M A) (k : A -> M B) (Q : B -> Prop) :
  triple I m (fun _ => True) X ->
  (forall a, triple I (k a) Q X) ->
  triple I (bind m k) Q X.
Proof. intros Hm Hk. eapply triple_bind; [exact Hm|]. intros a _. apply Hk. Qed.

Lemma triple_bind_read {A} (k : Vars -> M A) (Q : A -> Prop) :
  (forall s0, I s0 -> triple I (k s0) Q X) ->
  triple I (bind read k) Q X.
Proof. intros Hk s Hs. unfold bind, read. exact (Hk s Hs s Hs). Qed.

Lemma triple_update (f : Vars -> Vars) (P : unit -> Prop) :
  (forall s, I s -> I (f s)) -> P tt -> triple I (update f) P X.
Proof. intros Hf HP s Hs. split; [exact (Hf s Hs)|exact HP]. Qed.

Lemma triple_emit (e : Event) (P : unit -> Prop) :
  (forall s, I s -> I (add_event e s)) -> P tt -> triple I (emit e) P X.
Proof. apply triple_update. Qed.

Lemma triple_call {A} (e : Event) (r : Result A) :
  (forall s, I s -> I (add_event e s)) ->
  triple I (call e r) (fun a => r = Ok a) X.
Proof.
  intros He s Hs. unfold call, bind, emit, update.
  destruct r as [a|err]; simpl; split; auto.
Qed.

Lemma triple_call_any {A} (e : Event) (r : Result A) :
  (forall s, I s -> I (add_event e s)) ->
  triple I (call e r) (fun _ => True) X.
Proof.
  intros He. eapply triple_weaken; [apply triple_call, He|]. auto.
Qed.

Lemma triple_bind_call {A B} (e : Event) (r : Result A) (k : A -> M B)
    (Q : B -> Prop) :
  (forall s, I s -> I (add_event e s)) ->
  (forall a, r = Ok a -> triple I (k a) Q X) ->
  triple I (bind (call e r) k) Q X.
Proof. intros He Hk. eapply triple_bind; [apply triple_call, He|exact Hk]. Qed.

Lemma triple_forEach {A} (f : A -> M unit) (xs : list A) :
  (forall x, triple I (f x) (fun _ => True) X) ->
  triple I (forEach f xs) (fun _ => True) X.
Proof.
  intros Hf. induction xs as [|x xs IH]; simpl.
  - now apply triple_ret.
  - apply triple_bind_any; [apply Hf|]. intros _. exact IH.
Qed.

Lemma triple_tryIgnore (body : M unit) :
  triple I body (fun _ => True) X ->
  triple I (tryIgnore body) (fun _ => True) X.
Proof.
  intros Hb s Hs. unfold tryIgnore. destruct (Hb s Hs) as [HI HP].
  destruct (body s) as [[a|e|c] s']; simpl in *; split; auto.
Qed.

End TripleRules.

(** One step of a proof of [triple], following the shape of the code. *)
Ltac triple_step :=
  lazymatch goal with
  | |- triple _ (bind (call _ _) _) _ _ =>
      apply triple_bind_call; [|intros ? ?]
  | |- triple _ (bind read _) _ _ =>
      apply triple_bind_read; intros ? ?
  | |- triple _ (bind _ _) _ _ =>
      apply triple_bind_any; [|intros ?]
  | |- triple _ (ret _) _ _ => apply triple_ret
  | |- triple _ (throw _) _ _ => apply triple_throw
  | |- triple _ (process_exit _) _ _ => apply triple_exit
  | |- triple _ (call _ _) _ _ => apply triple_call_any
  | |- triple _ (emit _) _ _ => apply triple_emit
  | |- triple _ (update _) _ _ => apply triple_update
  | |- triple _ (forEach _ _) _ _ => apply triple_forEach; intros ?
  | |- triple _ (tryIgnore _) _ _ => apply triple_tryIgnore
  | |- triple _ (match ?x with _ => _ end) _ _ => destruct x eqn:?
  end.

(** ** Traces *)

Lemma allEvents_initial (ok : Event -> bool) : allEvents ok initialVars.
Proof. reflexivity. Qed.

Lemma allEvents_add (ok : Event -> bool) (e : Event) (s : Vars) :
  ok e = true -> allEvents ok s -> allEvents ok (add_event e s).
Proof.
  unfold allEvents. intros He Hs. simpl.
  rewrite forallb_app, Hs. simpl. now rewrite He.
Qed.

(** ** The [try]/[catch]/[finally] statement of the action *)

(** An exception in the [try] block ends the process in the [catch]
    block: two lines are logged, the exit code is 1, and the [finally]
    block does not run. *)
Lemma action_when_try_throws (w : World) (filePath : string) (live : bool)
    (e : Error) (s : Vars) :
  tryBlock w filePath live initialVars = (Throw e, s) ->
  action w filePath live
  = (Exit 1,
     add_event (LogError (error_message e))
       (add_event (LogError "An error occurred during scenario execution:") s)).
Proof.
  intros H. unfold action, tryCatchFinally. rewrite H. reflexivity.
Qed.

(** A [process.exit] in the [try] block ends the action there. *)
Lemma action_when_try_exits (w : World) (filePath : string) (live : bool)
    (c : nat) (s : Vars) :
  tryBlock w filePath live initialVars = (Exit c, s) ->
  action w filePath live = (Exit c, s).
Proof.
  intros H. unfold action, tryCatchFinally. rewrite H. reflexivity.
Qed.

(** When the [try] block completes, the [finally] block runs next. *)
Lemma action_when_try_completes (w : World) (filePath : string) (live : bool)
    (s : Vars) :
  tryBlock w filePath live initialVars = (Normal tt, s) ->
  action w filePath live = finallyBlock w s.
Proof.
  intros H. unfold action, tryCatchFinally. rewrite H. reflexivity.
Qed.

(** If the [try] block never completes normally and exits only with
    code 1, so does the action, and an invariant that admits error logs
    is kept. *)
Lemma action_exits_1 (I : Vars -> Prop) (w : World) (filePath : string)
    (live : bool) :
  I initialVars ->
  (forall msg s, I s -> I (add_event (LogError msg) s)) ->
  triple I (tryBlock w filePath live) (fun _ => False) (eq 1) ->
  fst (action w filePath live) = Exit 1 /\ I (snd (action w filePath live)).
Proof.
  intros H0 Hlog Htry.
  destruct (Htry initialVars H0) as [HI HP].
  destruct (tryBlock w filePath live initialVars) as [[[]|e|c] s] eqn:E;
    simpl in *.
  - contradiction.
  - rewrite (action_when_try_throws _ _ _ _ _ E). simpl. auto.
  - rewrite (action_when_try_exits _ _ _ _ _ E). simpl. subst c. auto.
Qed.

(** An invariant kept by the [try] block and the [finally] block, and
    admitting error logs, holds when the action ends. *)
Lemma action_keeps (I : Vars -> Prop) (w : World) (filePath : string)
    (live : bool) :
  I initialVars ->
  (forall msg s, I s -> I (add_event (LogError msg) s)) ->
  triple I (tryBlock w filePath live) (fun _ => True) (fun _ => True) ->
  triple I (finallyBlock w) (fun _ => True) (fun _ => True) ->
  I (snd (action w filePath live)).
Proof.
  intros H0 Hlog Htry Hfin.
  destruct (Htry initialVars H0) as [HI _].
  destruct (tryBlock w filePath live initialVars) as [[[]|e|c] s] eqn:E;
    simpl in *.
  - rewrite (action_when_try_completes _ _ _ _ E). apply Hfin, HI.
  - rewrite (action_when_try_throws _ _ _ _ _ E). simpl. auto.
  - rewrite (action_when_try_exits _ _ _ _ _ E). exact HI.
Qed.

(** ** Loading the scenario *)

Lemma loadScenario_triple (I : Vars -> Prop) (X : nat -> Prop) (w : World)
    (filePath : string) :
  (forall msg s, I s -> I (add_event (LogError msg) s)) ->
  X 1 ->
  triple I (loadScenario w filePath)
         (fun scenario => scenarioFile w filePath = FileValid scenario) X.
Proof.
  intros Hlog HX. unfold loadScenario.
  destruct (scenarioFile w filePath) as [|e| |sc].
  - apply triple_bind_any; [apply triple_emit; auto|].
    intros _. now apply triple_exit.
  - apply triple_throw.
  - apply triple_bind_any; [apply triple_emit; auto|].
    intros _. now apply triple_exit.
  - now apply triple_ret.
Qed.

(** ** Unsupported environment types *)

(** C3. For a scenario whose [environment.type] is neither [local] nor
    [e2b] the action exits with code 1, and all it has called until then
    is the plugin parser, the reporter's start and the error log: no
    runtime is created, no provider is set up or run, no mock applied,
    nothing evaluated. *)
Theorem unsupported_environment_aborts (w : World) (filePath : string)
    (live : bool) (scenario : Scenario) :
  scenarioFile w filePath = FileValid scenario ->
  environment_type scenario <> "local" ->
  environment_type scenario <> "e2b" ->
  fst (action w filePath live) = Exit 1
  /\ forallb beforeEnvironment (trace (snd (action w filePath live))) = true.
Proof.
  intros Hfile Hlocal He2b.
  apply (action_exits_1 (allEvents beforeEnvironment)).
  - apply allEvents_initial.
  - intros msg s. now apply allEvents_add.
  - unfold tryBlock, prepareAndRun.
    eapply triple_bind with (P := fun _ => False); [|intros ? []].
    eapply triple_bind.
    { apply loadScenario_triple; [|reflexivity].
      intros msg s. now apply allEvents_add. }
    intros sc Hsc. rewrite Hfile in Hsc. injection Hsc as <-.
    apply triple_bind_any.
    { unfold parsePlugins.
      repeat triple_step;
        try solve [ exact Logic.I | reflexivity
                  | intros; now apply allEvents_add ]. }
    intros _. apply triple_bind_any.
    { unfold startReporter.
      repeat triple_step;
        try solve [ exact Logic.I | intros; now apply allEvents_add
                  | intros ? H; exact H ]. }
    intros _.
    eapply triple_bind with (P := fun _ => False); [|intros ? []].
    unfold selectProvider.
    destruct (String.eqb_spec (environment_type scenario) "e2b");
      [contradiction|].
    destruct (String.eqb_spec (environment_type scenario) "local");
      [contradiction|].
    repeat triple_step;
      try solve [ exact Logic.I | reflexivity
                | intros; now apply allEvents_add ].
Qed.

Lemma unsupported_environment_aborts_witness :
  fst (action Examples.unknownEnvironment "unknown.scenario.yaml" false)
  = Exit 1
  /\ forallb beforeEnvironment
       (trace (snd (action Examples.unknownEnvironment
                      "unknown.scenario.yaml" false))) = true.
Proof.
  apply (unsupported_environment_aborts Examples.unknownEnvironment
           "unknown.scenario.yaml" false
           (Examples.scenarioWith "unknown" (Some [Examples.someMock])
              [Examples.stringContains "OK"] "all_pass")).
  - reflexivity.
  - discriminate.
  - discriminate.
Defined.

(** ** More rules: results lifted into the action, the runtime loop *)

Lemma triple_liftResult_any (I : Vars -> Prop) (X : nat -> Prop) {A}
    (r : Result A) :
  triple I (liftResult r) (fun _ => True) X.
Proof. intros s Hs. destruct r; simpl; split; auto. Qed.

Lemma triple_runtimeLoop (I : Vars -> Prop) (X : nat -> Prop) (w : World)
    (steps : list Step) (rest : list ExecutionResult) :
  (forall evs r s, I s -> I (add_event (RunEvaluations evs r) s)) ->
  forall i acc,
    triple I (runtimeLoop w steps i rest acc) (fun _ => True) X.
Proof.
  intros Hrun. induction rest as [|result rest IH]; intros i acc; simpl.
  - now apply triple_ret.
  - repeat (triple_step || apply IH || apply Hrun).
Qed.

(** ** Mocks are applied only with a runtime, declared mocks and no [--live] *)

Lemma mockFree_add (w : World) (e : Event) (s : Vars) :
  notMockEvent e = true -> mockFree w s -> mockFree w (add_event e s).
Proof.
  intros He (Ht & Hm & Hr). repeat split; auto. now apply allEvents_add.
Qed.

Lemma mockFree_created (w : World) (ps : list string) (c : Created) (s : Vars) :
  createScenarioServerAndAgent w ps = Ok c ->
  mockFree w s -> mockFree w (set_created c s).
Proof.
  intros Hc (Ht & Hm & Hr). repeat split; auto.
  intros Hno. simpl. exact (Hno ps c Hc).
Qed.

Ltac mockFree_side :=
  solve [ exact Logic.I
        | intros; apply mockFree_add; [reflexivity|assumption]
        | intros; eapply mockFree_created; eassumption
        | intros ? HI; exact HI ].

Lemma initMocks_mockFree (w : World) (filePath : string) (live : bool)
    (scenario : Scenario) :
  live = true
  \/ (forall sc, scenarioFile w filePath = FileValid sc -> setup_mocks sc = None)
  \/ noRuntime w ->
  scenarioFile w filePath = FileValid scenario ->
  triple (mockFree w) (initMocks w live scenario)
         (fun _ => True) (fun _ => True).
Proof.
  intros H Hfile. unfold initMocks.
  apply triple_bind_read. intros s0 (Ht & Hm & Hr).
  destruct (runtime s0) as [rt|] eqn:Hrt; [|now apply triple_ret].
  destruct (setup_mocks scenario) as [mocks|] eqn:Hmocks;
    [|now apply triple_ret].
  destruct live; [now apply triple_ret|].
  exfalso. destruct H as [H|[H|H]].
  - discriminate.
  - rewrite (H _ Hfile) in Hmocks. discriminate.
  - specialize (Hr H). discriminate.
Qed.

(** C10. With [--live], or when the scenario declares no mocks, or when
    the runtime factory gives no runtime, the action never creates a
    mock engine and never calls [applyMocks] (nor [revertMocks]),
    whatever else happens; [mockEngine] is still unset when it ends. *)
Theorem live_mode_never_mocks (w : World) (filePath : string) (live : bool) :
  live = true
  \/ (forall sc, scenarioFile w filePath = FileValid sc -> setup_mocks sc = None)
  \/ (forall ps c, createScenarioServerAndAgent w ps = Ok c ->
                   c_runtime c = None) ->
  existsb isMockEvent (trace (snd (action w filePath live))) = false
  /\ mockEngine (snd (action w filePath live)) = None.
Proof.
  intros H.
  assert (K : mockFree w (snd (action w filePath live))).
  { apply action_keeps.
    - repeat split.
    - intros msg s. now apply mockFree_add.
    - unfold tryBlock, prepareAndRun.
      apply triple_bind_any.
      + eapply triple_bind.
        { apply loadScenario_triple; [|exact Logic.I].
          intros msg s. now apply mockFree_add. }
        intros scenario Hfile.
        unfold parsePlugins, startReporter, selectProvider,
          createServerAndAgent, newProvider, setupAndRun,
          reportExecutionResult.
        repeat (triple_step; try mockFree_side).
        all: now apply (initMocks_mockFree w filePath).
      + intros [scenario results]. unfold evaluate, judge.
        repeat (triple_step; try mockFree_side).
        * apply triple_runtimeLoop. intros. now apply mockFree_add.
        * apply triple_liftResult_any.
    - unfold finallyBlock, teardownProvider, shutdownRuntime,
        stopCreatedServer, reportAndExit.
      apply triple_bind_any.
      { unfold revertMocksIfApplied.
        apply triple_bind_read. intros s0 (Ht & Hm & Hr). rewrite Hm.
        now apply triple_ret. }
      intros _. repeat (triple_step; try mockFree_side). }
  destruct K as (Ht & Hm & _). split; [|exact Hm].
  unfold allEvents in Ht.
  induction (trace (snd (action w filePath live))) as [|e t IH];
    [reflexivity|].
  simpl in *. apply andb_true_iff in Ht as [He Ht].
  unfold notMockEvent in He. apply negb_true_iff in He.
  rewrite He. simpl. now apply IH.
Qed.

Lemma live_mode_never_mocks_witness :
  existsb isMockEvent
    (trace (snd (action Examples.allSucceeds "mocked.scenario.yaml" true)))
  = false
  /\ mockEngine (snd (action Examples.allSucceeds "mocked.scenario.yaml" true))
     = None.
Proof.
  apply (live_mode_never_mocks Examples.allSucceeds
           "mocked.scenario.yaml" true).
  left. reflexivity.
Defined.

(** ** Invalid patterns in evaluation without a runtime *)

Lemma evaluateBasic_invalid_pattern (w : World) (evaluation : Evaluation)
    (result : ExecutionResult) :
  ev_type evaluation = "regex_match" ->
  RegExp_new w (ev_pattern evaluation) = None ->
  evaluateBasic w evaluation result
  = Raise (SyntaxError ("Invalid regular expression: /"
                        ++ ev_pattern evaluation ++ "/")).
Proof.
  intros Htype Hnew. unfold evaluateBasic. rewrite Htype. simpl.
  now rewrite Hnew.
Qed.

Lemma evaluateBasic_valid_pattern (w : World) (evaluation : Evaluation)
    (result : ExecutionResult) (re : RegExp w) :
  ev_type evaluation = "regex_match" ->
  RegExp_new w (ev_pattern evaluation) = Some re ->
  evaluateBasic w evaluation result
  = Ok {| success := RegExp_test w re (stdout result);
          message := "Checked if stdout matches regex " ++ JsString.dquote
                     ++ ev_pattern evaluation ++ JsString.dquote
                     ++ ". Result: "
                     ++ JsString.ofBool (RegExp_test w re (stdout result)) |}.
Proof.
  intros Htype Hnew. unfold evaluateBasic. rewrite Htype. simpl.
  now rewrite Hnew.
Qed.

(** An evaluator that throws makes the loop over a step's evaluators
    throw: no result list comes out of it. *)
Lemma evaluateAll_raises (w : World) (evs : list Evaluation)
    (result : ExecutionResult) (ev : Evaluation) :
  In ev evs ->
  (exists e, evaluateBasic w ev result = Raise e) ->
  forall acc, exists e, evaluateAll w evs result acc = Raise e.
Proof.
  intros Hin [e He]. induction evs as [|ev0 evs IH]; [destruct Hin|].
  intros acc. simpl. destruct Hin as [->|Hin].
  - rewrite He. simpl. eauto.
  - destruct (evaluateBasic w ev0 result) as [r|e0]; simpl; eauto.
Qed.

(** So does the loop over the results, when the evaluator belongs to a
    step the loop visits. *)
Lemma basicLoop_raises (w : World) (steps : list Step) (ev : Evaluation)
    (rest : list ExecutionResult) :
  (forall result, exists e, evaluateBasic w ev result = Raise e) ->
  forall i acc j step evs,
    j < List.length rest ->
    nth_error steps (i + j) = Some step ->
    evaluations step = Some evs ->
    In ev evs ->
    exists e, basicLoop w steps i rest acc = Raise e.
Proof.
  intros Hr. induction rest as [|result rest IH];
    intros i acc j step evs Hj Hnth Hev Hin; simpl in *; [lia|].
  destruct j as [|j].
  - rewrite Nat.add_0_r in Hnth. rewrite Hnth, Hev.
    destruct evs as [|ev0 evs]; [destruct Hin|].
    destruct (evaluateAll_raises w (ev0 :: evs) result ev Hin (Hr result) acc)
      as [e He].
    rewrite He. simpl. eauto.
  - assert (Hnext : forall acc', exists e,
               basicLoop w steps (S i) rest acc' = Raise e).
    { intros acc'. apply (IH (S i) acc' j step evs); auto; [lia|].
      rewrite <- Hnth. f_equal. lia. }
    destruct (nth_error steps i) as [st|]; [|eauto].
    destruct (evaluations st) as [[|ev0 evs0]|]; auto.
    destruct (evaluateAll w (ev0 :: evs0) result acc) as [acc'|e];
      simpl; eauto.
Qed.

Ltac beforeEvaluation_side :=
  solve [ exact Logic.I
        | intros; apply allEvents_add; [reflexivity|assumption]
        | intros ? HI; exact HI ].

(** Until the run block has returned, nothing is evaluated, reverted,
    torn down or reported as final. *)
Lemma prepareAndRun_beforeEvaluation (w : World) (filePath : string)
    (live : bool) :
  triple (allEvents beforeEvaluation) (prepareAndRun w filePath live)
         (fun _ => True) (fun _ => True).
Proof.
  unfold prepareAndRun.
  eapply triple_bind.
  { apply loadScenario_triple; [|exact Logic.I].
    intros msg s. now apply allEvents_add. }
  intros scenario _.
  unfold parsePlugins, startReporter, selectProvider, createServerAndAgent,
    newProvider, initMocks, setupAndRun, reportExecutionResult.
  repeat (triple_step; try beforeEvaluation_side).
Qed.

(** C2, as stated, fails: the evaluator with the invalid pattern ["("]
    yields no result; the evaluation throws, the second evaluator is not
    reached, and the action exits with code 1 without reporting any
    evaluation result. *)
Lemma invalid_pattern_not_recorded :
  ~ invalidPatternRecorded Examples.badPattern
      (run Examples.badPatternScenario) [Examples.output "OK"]
  /\ evaluateBasic Examples.badPattern (Examples.regexMatch "(")
       (Examples.output "OK")
     = Raise (SyntaxError "Invalid regular expression: /(/")
  /\ fst (action Examples.badPattern "bad.scenario.yaml" false) = Exit 1
  /\ forallb beforeEvaluation
       (trace (snd (action Examples.badPattern "bad.scenario.yaml" false)))
     = true.
Proof.
  split; [|repeat split].
  intros (failed & others & H & _). vm_compute in H. discriminate.
Qed.

(** C2, amended.  Without a runtime, a [regex_match] evaluator whose
    pattern does not compile throws when it is evaluated: if it belongs
    to a step the evaluation loop visits, the loop produces no results,
    the action exits with code 1, and nothing is evaluated further,
    reported as evaluation result or final result, reverted or torn
    down.  A [regex_match] evaluator whose pattern compiles (it is
    compiled at each evaluation) yields a result whose success is the
    outcome of testing the captured output against it. *)
Theorem invalid_pattern_aborts_valid_pattern_tests (w : World)
    (filePath : string) (live : bool) :
  (forall scenario results s i step evs evaluation,
     prepareAndRun w filePath live initialVars
     = (Normal (scenario, results), s) ->
     runtime s = None ->
     i < List.length results ->
     nth_error (run scenario) i = Some step ->
     evaluations step = Some evs ->
     In evaluation evs ->
     ev_type evaluation = "regex_match" ->
     RegExp_new w (ev_pattern evaluation) = None ->
     (forall result, exists e, evaluateBasic w evaluation result = Raise e)
     /\ (exists e, basicEvaluations w (run scenario) results = Raise e)
     /\ fst (action w filePath live) = Exit 1
     /\ forallb beforeEvaluation (trace (snd (action w filePath live)))
        = true)
  /\ (forall evaluation result re,
        ev_type evaluation = "regex_match" ->
        RegExp_new w (ev_pattern evaluation) = Some re ->
        exists res,
          evaluateBasic w evaluation result = Ok res
          /\ success res = RegExp_test w re (stdout result)).
Proof.
  split.
  - intros scenario results s i step evs evaluation
           Hprep Hrt Hi Hnth Hevs Hin Htype Hnew.
    assert (Hr : forall result, exists e,
               evaluateBasic w evaluation result = Raise e).
    { intros result. eexists.
      now apply evaluateBasic_invalid_pattern. }
    assert (Hloop : exists e,
               basicEvaluations w (run scenario) results = Raise e).
    { apply (basicLoop_raises w (run scenario) evaluation results Hr
               0 [] i step evs); auto. }
    split; [exact Hr|]. split; [exact Hloop|].
    destruct Hloop as [e He].
    assert (Htry : tryBlock w filePath live initialVars = (Throw e, s)).
    { unfold tryBlock, bind. rewrite Hprep. simpl.
      unfold evaluate, bind, read. rewrite Hrt, He. reflexivity. }
    rewrite (action_when_try_throws _ _ _ _ _ Htry). simpl. split; [reflexivity|].
    pose proof (prepareAndRun_beforeEvaluation w filePath live initialVars
                  (allEvents_initial _)) as [Hs _].
    rewrite Hprep in Hs. simpl in Hs.
    change (allEvents beforeEvaluation
              (add_event (LogError (error_message e))
                 (add_event
                    (LogError "An error occurred during scenario execution:")
                    s))).
    now repeat apply allEvents_add.
  - intros evaluation result re Htype Hnew. eexists. split.
    + exact (evaluateBasic_valid_pattern w evaluation result re Htype Hnew).
    + reflexivity.
Qed.

Lemma invalid_pattern_aborts_valid_pattern_tests_witness :
  (fst (action Examples.badPattern "bad.scenario.yaml" false) = Exit 1
   /\ forallb beforeEvaluation
        (trace (snd (action Examples.badPattern "bad.scenario.yaml" false)))
      = true)
  /\ (exists res,
        evaluateBasic Examples.goodPattern (Examples.regexMatch "code: \d+")
                      (Examples.output "code: 42") = Ok res
        /\ success res = true).
Proof.
  split.
  - eapply (proj1 (invalid_pattern_aborts_valid_pattern_tests
                     Examples.badPattern "bad.scenario.yaml" false)
              Examples.badPatternScenario [Examples.output "OK"] _ 0
              _ _ (Examples.regexMatch "(")).
    + reflexivity.
    + reflexivity.
    + simpl. lia.
    + reflexivity.
    + reflexivity.
    + left. reflexivity.
    + reflexivity.
    + reflexivity.
  - eassert (E : RegExp_new Examples.goodPattern "code: \d+" = Some _)
      by (vm_compute; reflexivity).
    destruct (proj2 (invalid_pattern_aborts_valid_pattern_tests
                       Examples.goodPattern "good.scenario.yaml" false)
                (Examples.regexMatch "code: \d+") (Examples.output "code: 42")
                _ eq_refl E) as (res & Hres & Hsuccess).
    exists res. split; [exact Hres|]. rewrite Hsuccess. reflexivity.
Defined.

(** ** Cleanup: mock reversion and teardown *)

Lemma existsb_add_false (p : Event -> bool) (t : list Event) (e : Event) :
  p e = false -> existsb p t = false -> existsb p (t ++ [e]) = false.
Proof. intros He Ht. rewrite existsb_app, Ht. simpl. now rewrite He. Qed.

Lemma forallb_negb_existsb (p q : Event -> bool) (t : list Event) :
  (forall e, p e = true -> q e = true) ->
  forallb (fun e => negb (q e)) t = true ->
  existsb p t = false.
Proof.
  intros Hpq. induction t as [|e t IH]; [reflexivity|]. simpl.
  intros H. apply andb_true_iff in H as [He Ht].
  rewrite (IH Ht), orb_false_r.
  destruct (p e) eqn:Hp; [|reflexivity].
  rewrite (Hpq e Hp) in He. discriminate.
Qed.

Lemma tryInvariant_add (e : Event) (s : Vars) :
  beforeCleanup e = true -> isApplyMocks e = false ->
  tryInvariant s -> tryInvariant (add_event e s).
Proof.
  intros Hc Ha [Ht Hm]. split; [now apply allEvents_add|].
  intros Hnone. simpl in *. now apply existsb_add_false; auto.
Qed.

Ltac tryInvariant_side :=
  solve [ exact Logic.I
        | intros; apply tryInvariant_add; [reflexivity|reflexivity|assumption]
        | intros ? HI; exact HI ].

Lemma initMocks_tryInvariant (w : World) (live : bool) (scenario : Scenario) :
  triple tryInvariant (initMocks w live scenario)
         (fun _ => True) (fun _ => True).
Proof.
  unfold initMocks. apply triple_bind_read. intros s0 _.
  destruct (runtime s0) as [rt|]; [|now apply triple_ret].
  destruct (setup_mocks scenario) as [mocks|]; [|now apply triple_ret].
  destruct live; [now apply triple_ret|].
  intros s [Ht Hm]. unfold bind, emit, update, call.
  destruct (MockEngine_applyMocks w mocks) as [[]|e]; simpl.
  - split; [|exact Logic.I]. split; [|discriminate].
    now repeat apply allEvents_add.
  - split; [|exact Logic.I]. split; [|discriminate].
    now repeat apply allEvents_add.
Qed.

Lemma tryBlock_tryInvariant (w : World) (filePath : string) (live : bool) :
  triple tryInvariant (tryBlock w filePath live)
         (fun _ => True) (fun _ => True).
Proof.
  unfold tryBlock, prepareAndRun.
  apply triple_bind_any.
  - eapply triple_bind.
    { apply loadScenario_triple; [|exact Logic.I].
      intros msg s. now apply tryInvariant_add. }
    intros scenario _.
    unfold parsePlugins, startReporter, selectProvider,
      createServerAndAgent, newProvider, setupAndRun, reportExecutionResult.
    repeat (triple_step; try tryInvariant_side).
    all: apply initMocks_tryInvariant.
  - intros [scenario results]. unfold evaluate, judge.
    repeat (triple_step; try tryInvariant_side).
    + apply triple_runtimeLoop. intros. now apply tryInvariant_add.
    + apply triple_liftResult_any.
Qed.

(** When the [try] block throws, nothing is cleaned up: [revertMocks]
    and [teardown] are not called before the process exits with code 1. *)
Lemma thrown_run_is_not_cleaned_up (w : World) (filePath : string)
    (live : bool) (e : Error) (s : Vars) :
  tryBlock w filePath live initialVars = (Throw e, s) ->
  fst (action w filePath live) = Exit 1
  /\ existsb isRevertMocks (trace (snd (action w filePath live))) = false
  /\ existsb isTeardown (trace (snd (action w filePath live))) = false.
Proof.
  intros Htry.
  destruct (tryBlock_tryInvariant w filePath live initialVars) as [[Ht _] _].
  { split; reflexivity. }
  rewrite Htry in Ht. simpl in Ht.
  rewrite (action_when_try_throws _ _ _ _ _ Htry). simpl.
  assert (H : forallb beforeCleanup
                (trace (add_event (LogError (error_message e))
                   (add_event
                      (LogError "An error occurred during scenario execution:")
                      s))) = true).
  { now repeat apply allEvents_add. }
  split; [reflexivity|]. split.
  - apply (forallb_negb_existsb isRevertMocks isCleanupEvent); [|exact H].
    now intros [].
  - apply (forallb_negb_existsb isTeardown isCleanupEvent); [|exact H].
    now intros [].
Qed.

Lemma bind_normal {A B} (m : M A) (k : A -> M B) (s s' : Vars) (a : A) :
  m s = (Normal a, s') -> bind m k s = k a s'.
Proof. intros H. unfold bind. now rewrite H. Qed.

Lemma revertedAt_add (t0 : list Event) (e : Event) (s : Vars) :
  isRevertMocks e = false -> revertedAt t0 s -> revertedAt t0 (add_event e s).
Proof.
  intros He (after & Ht & Hn). exists (after ++ [e]). split.
  - simpl. rewrite Ht. now rewrite <- app_assoc.
  - now apply existsb_add_false.
Qed.

Ltac revertedAt_side :=
  solve [ exact Logic.I
        | intros; apply revertedAt_add; [reflexivity|assumption]
        | intros ? HI; exact HI ].

(** When the [try] block completes after [applyMocks] was called, the
    [finally] block calls [revertMocks] first: exactly once in the whole
    action, and before any [teardown]. *)
Lemma completed_run_reverts_once_before_teardown (w : World)
    (filePath : string) (live : bool) (s : Vars) :
  tryBlock w filePath live initialVars = (Normal tt, s) ->
  existsb isApplyMocks (trace s) = true ->
  exists before after,
    trace (snd (action w filePath live)) = before ++ RevertMocks :: after
    /\ existsb isRevertMocks before = false
    /\ existsb isTeardown before = false
    /\ existsb isRevertMocks after = false.
Proof.
  intros Htry Happlied.
  destruct (tryBlock_tryInvariant w filePath live initialVars) as [[Ht Hm] _].
  { split; reflexivity. }
  rewrite Htry in Ht, Hm. simpl in Ht, Hm.
  destruct (mockEngine s) as [m|] eqn:Hengine;
    [|rewrite (Hm eq_refl) in Happlied; discriminate].
  rewrite (action_when_try_completes _ _ _ _ Htry).
  assert (K : revertedAt (trace s) (snd (finallyBlock w s))).
  { unfold finallyBlock.
    assert (R : triple (revertedAt (trace s))
                  (teardownProvider w ;; shutdownRuntime w ;;
                   stopCreatedServer w ;; reportAndExit)
                  (fun _ => True) (fun _ => True)).
    { unfold teardownProvider, shutdownRuntime, stopCreatedServer,
        reportAndExit.
      repeat (triple_step; try revertedAt_side). }
    assert (R0 : revertedAt (trace s) (add_event RevertMocks s)).
    { exists []. split; reflexivity. }
    unfold bind at 1. unfold revertMocksIfApplied, bind, read at 1.
    rewrite Hengine. unfold call, bind, emit, update.
    destruct (MockEngine_revertMocks w) as [[]|e]; simpl.
    - apply (R _ R0).
    - exact R0. }
  destruct K as (after & Hafter & Hn).
  exists (trace s), after. split; [exact Hafter|]. split; [|split].
  - apply (forallb_negb_existsb isRevertMocks isCleanupEvent); [|exact Ht].
    now intros [].
  - apply (forallb_negb_existsb isTeardown isCleanupEvent); [|exact Ht].
    now intros [].
  - exact Hn.
Qed.

(** C1.  The mocked scenario in a world whose provider throws in
    [setup], and in one whose provider throws in [run]: [applyMocks] has
    been called once, the [catch] block exits the process with code 1,
    and neither [revertMocks] nor [teardown] is ever called; the mock
    engine is still in place. *)
Theorem mocks_not_reverted_after_exception :
  let afterSetup := action Examples.setupFails "mocked.scenario.yaml" false in
  let afterRun := action Examples.runFails "mocked.scenario.yaml" false in
  (fst afterSetup = Exit 1
   /\ count isApplyMocks (trace (snd afterSetup)) = 1
   /\ count isRevertMocks (trace (snd afterSetup)) = 0
   /\ count isTeardown (trace (snd afterSetup)) = 0
   /\ mockEngine (snd afterSetup) = Some (MockEngineFor RuntimeHandle))
  /\ (fst afterRun = Exit 1
      /\ count isApplyMocks (trace (snd afterRun)) = 1
      /\ count isRevertMocks (trace (snd afterRun)) = 0
      /\ count isTeardown (trace (snd afterRun)) = 0
      /\ mockEngine (snd afterRun) = Some (MockEngineFor RuntimeHandle)).
Proof. repeat split. Qed.

(** ** The verdict and the exit code *)

Lemma revertMocksIfApplied_completes (w : World) (s : Vars) :
  MockEngine_revertMocks w = Ok tt ->
  exists s', revertMocksIfApplied w s = (Normal tt, s')
             /\ locals s' = locals s.
Proof.
  intros Hrev. unfold revertMocksIfApplied, bind, read, call, emit, update.
  destruct (mockEngine s); rewrite ?Hrev; eexists; split; reflexivity.
Qed.

Lemma teardownProvider_completes (w : World) (s : Vars) :
  (forall p, provider_teardown w p = Ok tt) ->
  exists s', teardownProvider w s = (Normal tt, s') /\ locals s' = locals s.
Proof.
  intros Htear. unfold teardownProvider, bind, read, call, emit, update.
  destruct (provider s) as [p|]; rewrite ?Htear; eexists; split; reflexivity.
Qed.

Lemma shutdownRuntime_completes (w : World) (s : Vars) :
  exists s', shutdownRuntime w s = (Normal tt, s') /\ locals s' = locals s.
Proof.
  unfold shutdownRuntime, tryIgnore, bind, read, call, emit, update, ret.
  destruct (runtime s); [|eexists; split; reflexivity].
  destruct (runtime_getService w "e2b") as [[[]]|];
    try destruct (service_stop w) as [[]|];
    destruct (runtime_close w) as [[]|];
    simpl; eexists; split; reflexivity.
Qed.

Lemma stopCreatedServer_completes (w : World) (s : Vars) :
  exists s', stopCreatedServer w s = (Normal tt, s') /\ locals s' = locals s.
Proof.
  unfold stopCreatedServer, tryIgnore, bind, read, call, emit, update, ret.
  destruct (server s); [|eexists; split; reflexivity].
  destruct (createdServer s); [|eexists; split; reflexivity].
  destruct (server_stop w) as [[]|]; simpl; eexists; split; reflexivity.
Qed.

Lemma locals_finalStatus (s s' : Vars) :
  locals s' = locals s -> finalStatus s' = finalStatus s.
Proof. unfold locals. intros H. now injection H. Qed.

(** When reverting the mocks and tearing down the provider do not throw,
    the [finally] block exits with code 0 if [finalStatus] is true and
    with code 1 otherwise. *)
Lemma finallyBlock_exit_code (w : World) (s : Vars) :
  MockEngine_revertMocks w = Ok tt ->
  (forall p, provider_teardown w p = Ok tt) ->
  fst (finallyBlock w s) = Exit (if finalStatus s then 0 else 1).
Proof.
  intros Hrev Htear. unfold finallyBlock.
  destruct (revertMocksIfApplied_completes w s Hrev) as (s1 & E1 & L1).
  rewrite (bind_normal _ _ _ _ _ E1).
  destruct (teardownProvider_completes w s1 Htear) as (s2 & E2 & L2).
  rewrite (bind_normal _ _ _ _ _ E2).
  destruct (shutdownRuntime_completes w s2) as (s3 & E3 & L3).
  rewrite (bind_normal _ _ _ _ _ E3).
  destruct (stopCreatedServer_completes w s3) as (s4 & E4 & L4).
  rewrite (bind_normal _ _ _ _ _ E4).
  assert (F : finalStatus s4 = finalStatus s).
  { rewrite (locals_finalStatus _ _ L4), (locals_finalStatus _ _ L3),
      (locals_finalStatus _ _ L2). now apply locals_finalStatus. }
  unfold reportAndExit, bind, read, emit, update, process_exit.
  destruct (reporter s4); simpl; now rewrite F.
Qed.

(** The exit code of a run that reaches judgment is the verdict of
    [applyJudgment] on the accumulated evaluation results. *)
Lemma judged_run_exit_code (w : World) (filePath : string) (live : bool)
    (scenario : Scenario) (results : list ExecutionResult) (s1 s2 : Vars)
    (allEvaluationResults : list EvaluationResult) :
  prepareAndRun w filePath live initialVars
  = (Normal (scenario, results), s1) ->
  evaluate w scenario results s1 = (Normal allEvaluationResults, s2) ->
  MockEngine_revertMocks w = Ok tt ->
  (forall p, provider_teardown w p = Ok tt) ->
  fst (action w filePath live)
  = Exit (if applyJudgment (judgment_strategy scenario) allEvaluationResults
          then 0 else 1).
Proof.
  intros Hprep Heval Hrev Htear.
  assert (Htry : exists s3,
             tryBlock w filePath live initialVars = (Normal tt, s3)
             /\ finalStatus s3
                = applyJudgment (judgment_strategy scenario)
                                allEvaluationResults).
  { unfold tryBlock. rewrite (bind_normal _ _ _ _ _ Hprep). simpl.
    rewrite (bind_normal _ _ _ _ _ Heval).
    unfold judge, bind, read, emit, update.
    destruct (reporter s2); eexists; split; reflexivity. }
  destruct Htry as (s3 & Htry & Hstatus).
  rewrite (action_when_try_completes _ _ _ _ Htry).
  rewrite (finallyBlock_exit_code w s3 Hrev Htear), Hstatus. reflexivity.
Qed.

(** ** Judgment *)

(** The verdict as the exit code shows it: a run that reaches judgment,
    and whose cleanup does not throw, exits with code 0 exactly when
    [applyJudgment] gives true, and with code 1 otherwise. *)
Lemma judged_run_passes_iff (w : World) (filePath : string) (live : bool)
    (scenario : Scenario) (results : list ExecutionResult) (s1 s2 : Vars)
    (allEvaluationResults : list EvaluationResult) :
  prepareAndRun w filePath live initialVars
  = (Normal (scenario, results), s1) ->
  evaluate w scenario results s1 = (Normal allEvaluationResults, s2) ->
  MockEngine_revertMocks w = Ok tt ->
  (forall p, provider_teardown w p = Ok tt) ->
  (fst (action w filePath live) = Exit 0
   <-> applyJudgment (judgment_strategy scenario) allEvaluationResults = true)
  /\ (fst (action w filePath live) = Exit 1
      <-> applyJudgment (judgment_strategy scenario) allEvaluationResults
          = false).
Proof.
  intros Hprep Heval Hrev Htear.
  rewrite (judged_run_exit_code _ _ _ _ _ _ _ _ Hprep Heval Hrev Htear).
  destruct (applyJudgment _ _); split; split; intros H;
    try reflexivity; discriminate.
Qed.

Lemma all_pass_iff (results : list EvaluationResult) :
  applyJudgment (Some "all_pass") results = true
  <-> Forall (fun r => success r = true) results.
Proof.
  change (applyJudgment (Some "all_pass") results)
    with (forallb success results).
  rewrite forallb_forall, Forall_forall. reflexivity.
Qed.

Lemma any_pass_iff (results : list EvaluationResult) :
  applyJudgment (Some "any_pass") results = true
  <-> Exists (fun r => success r = true) results.
Proof.
  change (applyJudgment (Some "any_pass") results)
    with (existsb success results).
  rewrite existsb_exists, Exists_exists. reflexivity.
Qed.

Lemma other_strategy_false (strategy : option string)
    (results : list EvaluationResult) :
  strategy <> Some "all_pass" ->
  strategy <> Some "any_pass" ->
  applyJudgment strategy results = false.
Proof.
  intros Hall Hany. unfold applyJudgment.
  destruct strategy as [str|]; [|reflexivity].
  destruct (String.eqb_spec str "all_pass") as [->|_]; [now elim Hall|].
  destruct (String.eqb_spec str "any_pass") as [->|_]; [now elim Hany|].
  reflexivity.
Qed.

(** C4. With strategy [all_pass] the verdict is true exactly when every
    evaluation result of the accumulated sequence succeeded; for the
    empty sequence it is true.  A run judged by [all_pass] whose cleanup
    does not throw exits with code 0 exactly in that case. *)
Theorem all_pass_verdict :
  (forall results,
     applyJudgment (Some "all_pass") results = true
     <-> Forall (fun r => success r = true) results)
  /\ applyJudgment (Some "all_pass") [] = true
  /\ (forall w filePath live scenario results s1 s2 allEvaluationResults,
        judgment_strategy scenario = Some "all_pass" ->
        prepareAndRun w filePath live initialVars
        = (Normal (scenario, results), s1) ->
        evaluate w scenario results s1 = (Normal allEvaluationResults, s2) ->
        MockEngine_revertMocks w = Ok tt ->
        (forall p, provider_teardown w p = Ok tt) ->
        (fst (action w filePath live) = Exit 0
         <-> Forall (fun r => success r = true) allEvaluationResults)).
Proof.
  split; [exact all_pass_iff|]. split; [reflexivity|].
  intros w filePath live scenario results s1 s2 all Hs Hprep Heval Hrev Htear.
  destruct (judged_run_passes_iff _ _ _ _ _ _ _ _ Hprep Heval Hrev Htear)
    as [H0 _].
  rewrite H0, Hs. apply all_pass_iff.
Qed.

Lemma all_pass_verdict_witness :
  fst (action (Examples.basic [Examples.stringContains "OK"] "all_pass" "OK")
         "ok.scenario.yaml" false) = Exit 0
  <-> Forall (fun r => success r = true) [Examples.checked "OK" true].
Proof.
  eapply (proj2 (proj2 all_pass_verdict) _ _ _
            (Examples.scenarioWith "local" None
               [Examples.stringContains "OK"] "all_pass"));
    reflexivity.
Defined.

(** C5. With strategy [any_pass] the verdict is true exactly when at
    least one evaluation result of the accumulated sequence succeeded;
    for the empty sequence it is false.  A run judged by [any_pass]
    whose cleanup does not throw exits with code 0 exactly in that
    case. *)
Theorem any_pass_verdict :
  (forall results,
     applyJudgment (Some "any_pass") results = true
     <-> Exists (fun r => success r = true) results)
  /\ applyJudgment (Some "any_pass") [] = false
  /\ (forall w filePath live scenario results s1 s2 allEvaluationResults,
        judgment_strategy scenario = Some "any_pass" ->
        prepareAndRun w filePath live initialVars
        = (Normal (scenario, results), s1) ->
        evaluate w scenario results s1 = (Normal allEvaluationResults, s2) ->
        MockEngine_revertMocks w = Ok tt ->
        (forall p, provider_teardown w p = Ok tt) ->
        (fst (action w filePath live) = Exit 0
         <-> Exists (fun r => success r = true) allEvaluationResults)).
Proof.
  split; [exact any_pass_iff|]. split; [reflexivity|].
  intros w filePath live scenario results s1 s2 all Hs Hprep Heval Hrev Htear.
  destruct (judged_run_passes_iff _ _ _ _ _ _ _ _ Hprep Heval Hrev Htear)
    as [H0 _].
  rewrite H0, Hs. apply any_pass_iff.
Qed.

Lemma any_pass_verdict_witness :
  fst (action (Examples.basic
                 [Examples.stringContains "FAIL"; Examples.stringContains "OK"]
                 "any_pass" "OK")
         "any.scenario.yaml" false) = Exit 0
  <-> Exists (fun r => success r = true)
        [Examples.checked "FAIL" false; Examples.checked "OK" true].
Proof.
  eapply (proj2 (proj2 any_pass_verdict) _ _ _
            (Examples.scenarioWith "local" None
               [Examples.stringContains "FAIL"; Examples.stringContains "OK"]
               "any_pass"));
    reflexivity.
Defined.

(** C6. For every strategy other than [all_pass] and [any_pass], an
    absent one included, the verdict is false whatever the evaluation
    results are; a run judged by such a strategy whose cleanup does not
    throw exits with code 1. *)
Theorem unknown_strategy_fails_closed :
  (forall strategy results,
     strategy <> Some "all_pass" ->
     strategy <> Some "any_pass" ->
     applyJudgment strategy results = false)
  /\ (forall w filePath live scenario results s1 s2 allEvaluationResults,
        judgment_strategy scenario <> Some "all_pass" ->
        judgment_strategy scenario <> Some "any_pass" ->
        prepareAndRun w filePath live initialVars
        = (Normal (scenario, results), s1) ->
        evaluate w scenario results s1 = (Normal allEvaluationResults, s2) ->
        MockEngine_revertMocks w = Ok tt ->
        (forall p, provider_teardown w p = Ok tt) ->
        fst (action w filePath live) = Exit 1).
Proof.
  split; [exact other_strategy_false|].
  intros w filePath live scenario results s1 s2 all
         Hall Hany Hprep Heval Hrev Htear.
  destruct (judged_run_passes_iff _ _ _ _ _ _ _ _ Hprep Heval Hrev Htear)
    as [_ H1].
  apply H1. now apply other_strategy_false.
Qed.

Lemma unknown_strategy_fails_closed_witness :
  applyJudgment (Some "majority") [Examples.checked "OK" true] = false
  /\ fst (action (Examples.basic [Examples.stringContains "OK"]
                    "majority" "OK")
            "majority.scenario.yaml" false) = Exit 1.
Proof.
  split.
  - apply (proj1 unknown_strategy_fails_closed); discriminate.
  - eapply (proj2 unknown_strategy_fails_closed _ _ _
              (Examples.scenarioWith "local" None
                 [Examples.stringContains "OK"] "majority"));
      try reflexivity; discriminate.
Defined.

(** The two end-to-end scenarios of a local environment without a
    runtime: one step that prints ["OK"], checked for ["OK"] and for
    ["FAIL"], judged by [all_pass]. *)
Example local_scenario_passes :
  fst (action
         (Examples.world
            (FileValid (Examples.scenarioWith "local" None
                          [Examples.stringContains "OK"] "all_pass"))
            (Ok Examples.withoutRuntime) (Ok tt) (Ok [Examples.output "OK"]))
         "ok.scenario.yaml" false)
  = Exit 0.
Proof. reflexivity. Qed.

Example local_scenario_fails :
  fst (action
         (Examples.world
            (FileValid (Examples.scenarioWith "local" None
                          [Examples.stringContains "FAIL"] "all_pass"))
            (Ok Examples.withoutRuntime) (Ok tt) (Ok [Examples.output "OK"]))
         "fail.scenario.yaml" false)
  = Exit 1.
Proof. reflexivity. Qed.

(** ** Matrix dimensions *)

Lemma fold_sizes (axes : list Matrix.MatrixAxis) (total : nat) :
  fold_left (fun total axis => total * List.length (Matrix.values axis))
            axes total
  = total * Matrix.productOfSizes axes.
Proof.
  revert total. induction axes as [|axis axes IH]; intros total; simpl.
  - lia.
  - rewrite IH. lia.
Qed.

Lemma length_flat_map_const {A B C} (g : A -> B -> C) (vs : list A)
    (xs : list B) :
  List.length (flat_map (fun v => map (g v) xs) vs)
  = List.length vs * List.length xs.
Proof.
  induction vs as [|v vs IH]; simpl; [reflexivity|].
  now rewrite List.length_app, List.length_map, IH.
Qed.

Lemma length_combinationsOf (axes : list Matrix.MatrixAxis) :
  List.length (Matrix.combinationsOf axes) = Matrix.productOfSizes axes.
Proof.
  induction axes as [|axis axes IH]; simpl; [reflexivity|].
  rewrite <- IH.
  exact (length_flat_map_const
           (fun v c => (Matrix.parameter axis, v) :: c)
           (Matrix.values axis) (Matrix.combinationsOf axes)).
Qed.

(** C9.  For every matrix configuration, [totalCombinations] is the
    product of the numbers of values of the axes (1 when there is no
    axis) and [totalRuns] is [totalCombinations] times
    [runs_per_combination]; it is the number of generated parameter
    combinations, and the execution plan without a filter shows the same
    two totals. *)
Theorem matrix_totals (config : Matrix.MatrixConfig)
    (stringify : Matrix.ParameterCombination -> string) :
  Matrix.calculateTotalCombinations config
  = Matrix.productOfSizes (Matrix.matrix config)
  /\ Matrix.productOfSizes [] = 1
  /\ Matrix.calculateTotalRuns config
     = Matrix.calculateTotalCombinations config
       * Matrix.runs_per_combination config
  /\ List.length (Matrix.generateParameterCombinations config)
     = Matrix.calculateTotalCombinations config
  /\ Matrix.plannedCombinations stringify None config
     = Matrix.calculateTotalCombinations config
  /\ Matrix.plannedRuns stringify None config
     = Matrix.calculateTotalRuns config.
Proof.
  assert (E : Matrix.calculateTotalCombinations config
              = Matrix.productOfSizes (Matrix.matrix config)).
  { unfold Matrix.calculateTotalCombinations. rewrite fold_sizes. lia. }
  assert (L : List.length (Matrix.generateParameterCombinations config)
              = Matrix.calculateTotalCombinations config).
  { rewrite E. apply length_combinationsOf. }
  repeat split; auto.
  unfold Matrix.plannedRuns, Matrix.plannedCombinations,
    Matrix.calculateTotalRuns. simpl. now rewrite L.
Qed.

(** Two axes with 3 and 4 values and 2 runs per combination: 12
    combinations, 24 runs. *)
Example matrix_3_by_4 :
  let config :=
    {| Matrix.name := "sweep";
       Matrix.base_scenario := "base.scenario.yaml";
       Matrix.runs_per_combination := 2;
       Matrix.matrix :=
         [ {| Matrix.parameter := "character.llm.model";
              Matrix.values := [Matrix.LitString "a"; Matrix.LitString "b";
                                Matrix.LitString "c"] |};
           {| Matrix.parameter := "run[0].input";
              Matrix.values := [Matrix.LitNumber 1; Matrix.LitNumber 2;
                                Matrix.LitNumber 3; Matrix.LitNumber 4] |} ] |} in
  Matrix.calculateTotalCombinations config = 12
  /\ Matrix.calculateTotalRuns config = 24
  /\ List.length (Matrix.generateParameterCombinations config) = 12.
Proof. repeat split. Qed.

(** ** The fragment engine tests for a match anywhere in the text *)

Module RegExpFragmentFacts.

Import RegExpFragment.

Lemma append_empty (s t : string) :
  (s ++ t)%string = EmptyString -> s = EmptyString /\ t = EmptyString.
Proof. destruct s; simpl; intros H; [auto|discriminate]. Qed.

Lemma nullable_spec (r : re) : nullable r = true <-> matches r EmptyString.
Proof.
  split.
  - induction r; simpl; intros H; try discriminate.
    + constructor.
    + apply andb_true_iff in H as [Ha Hb].
      change EmptyString with (EmptyString ++ EmptyString)%string.
      constructor; auto.
    + apply orb_true_iff in H as [H|H]; [apply MAltL|apply MAltR]; auto.
    + constructor.
  - intros H. remember EmptyString as s eqn:Es.
    induction H; simpl; try discriminate; auto.
    + apply append_empty in Es as [-> ->]. now rewrite IHmatches1, IHmatches2.
    + now rewrite IHmatches.
    + rewrite IHmatches; auto. apply orb_true_r.
Qed.

(** A non-empty match of [Star a] starts with a non-empty match of [a]. *)
Lemma star_cons (a : re) (c : ascii) (s : string) :
  matches (Star a) (String c s) ->
  exists s1 s2, s = (s1 ++ s2)%string
                /\ matches a (String c s1) /\ matches (Star a) s2.
Proof.
  intros H. remember (Star a) as r eqn:Er.
  remember (String c s) as cs eqn:Es.
  induction H; try discriminate.
  injection Er as ->.
  destruct s0 as [|d s0]; simpl in Es.
  - now apply IHmatches2.
  - injection Es as -> <-. now exists s0, t.
Qed.

Lemma deriv_sound (r : re) :
  forall c r' s, deriv c r = Some r' -> matches r' s ->
                 matches r (String c s).
Proof.
  induction r as [|d| | |a IHa b IHb|a IHa b IHb|a IHa];
    intros c r' s Hd Hm; simpl in Hd.
  - discriminate.
  - destruct (Ascii.eqb_spec c d) as [->|]; [|discriminate].
    injection Hd as <-. inversion Hm; subst. constructor.
  - destruct (isLineTerminator c) eqn:E; [discriminate|].
    injection Hd as <-. inversion Hm; subst. now constructor.
  - destruct (isDigit c) eqn:E; [|discriminate].
    injection Hd as <-. inversion Hm; subst. now constructor.
  - assert (Hleft : forall a' t, deriv c a = Some a' ->
                      matches (Seq a' b) t ->
                      matches (Seq a b) (String c t)).
    { intros a' t Ha Ht. inversion Ht; subst.
      change (String c (s0 ++ t0)) with (String c s0 ++ t0)%string.
      constructor; eauto. }
    assert (Hright : forall b' t, nullable a = true ->
                       deriv c b = Some b' -> matches b' t ->
                       matches (Seq a b) (String c t)).
    { intros b' t Hn Hb Ht.
      change (String c t) with (EmptyString ++ String c t)%string.
      constructor; [now apply nullable_spec|eauto]. }
    destruct (nullable a) eqn:Hn;
      destruct (deriv c a) as [a'|] eqn:Ha;
      destruct (deriv c b) as [b'|] eqn:Hb;
      simpl in Hd; try discriminate; injection Hd as <-; eauto.
    inversion Hm; subst; eauto.
  - destruct (deriv c a) as [a'|] eqn:Ha;
      destruct (deriv c b) as [b'|] eqn:Hb;
      try discriminate; injection Hd as <-.
    + inversion Hm; subst; [apply MAltL|apply MAltR]; eauto.
    + apply MAltL; eauto.
    + apply MAltR; eauto.
  - destruct (deriv c a) as [a'|] eqn:Ha; [|discriminate].
    simpl in Hd. injection Hd as <-. inversion Hm; subst.
    change (String c (s0 ++ t)) with (String c s0 ++ t)%string.
    constructor; eauto.
Qed.

Lemma deriv_complete (r : re) :
  forall c s, matches r (String c s) ->
              exists r', deriv c r = Some r' /\ matches r' s.
Proof.
  induction r as [|d| | |a IHa b IHb|a IHa b IHb|a IHa];
    intros c s Hm; simpl.
  - inversion Hm.
  - inversion Hm; subst. rewrite Ascii.eqb_refl. eexists; split; eauto.
    constructor.
  - inversion Hm as [| |c' Hc| | | | | |]; subst. rewrite Hc.
    eexists; split; eauto. constructor.
  - inversion Hm as [| | |c' Hc| | | | |]; subst. rewrite Hc.
    eexists; split; eauto. constructor.
  - inversion Hm as [| | | |a0 b0 s1 s2 H1 H2 [Ea Eb] E| | | |]; subst.
    destruct s1 as [|d s1]; simpl in E.
    + subst s2. apply nullable_spec in H1. rewrite H1.
      destruct (IHb _ _ H2) as (b' & Hb & Hmb). rewrite Hb.
      destruct (deriv c a) as [a'|]; simpl; eexists; split; eauto.
      now apply MAltR.
    + injection E as -> <-.
      destruct (IHa _ _ H1) as (a' & Ha & Hma). rewrite Ha. simpl.
      assert (Hs : matches (Seq a' b) (s1 ++ s2)) by now constructor.
      destruct (nullable a); [|eauto].
      destruct (deriv c b); eexists; split; eauto. now apply MAltL.
  - inversion Hm as [| | | | |a0 b0 s0 H1|a0 b0 s0 H1| |]; subst.
    + destruct (IHa _ _ H1) as (a' & Ha & Hma). rewrite Ha.
      destruct (deriv c b); eexists; split; eauto. now apply MAltL.
    + destruct (IHb _ _ H1) as (b' & Hb & Hmb). rewrite Hb.
      destruct (deriv c a); eexists; split; eauto. now apply MAltR.
  - destruct (star_cons _ _ _ Hm) as (s1 & s2 & -> & H1 & H2).
    destruct (IHa _ _ H1) as (a' & Ha & Hma). rewrite Ha. simpl.
    eexists; split; eauto. now constructor.
Qed.

Lemma matchesPrefix_spec (s : string) :
  forall r, matchesPrefix r s = true
            <-> exists pre post, s = (pre ++ post)%string /\ matches r pre.
Proof.
  induction s as [|c s IH]; intros r; simpl.
  - rewrite orb_false_r, nullable_spec. split.
    + intros H. now exists EmptyString, EmptyString.
    + intros (pre & post & E & H). symmetry in E.
      apply append_empty in E as [-> _]. exact H.
  - split.
    + intros H. apply orb_true_iff in H as [H|H].
      * exists EmptyString, (String c s). split; [reflexivity|].
        now apply nullable_spec.
      * destruct (deriv c r) as [r'|] eqn:Hd; [|discriminate].
        apply IH in H as (pre & post & -> & H).
        exists (String c pre), post. split; [reflexivity|].
        eapply deriv_sound; eauto.
    + intros (pre & post & E & H). destruct pre as [|d pre]; simpl in E.
      * apply nullable_spec in H. now rewrite H.
      * injection E as <- ->.
        destruct (deriv_complete _ _ _ H) as (r' & Hd & Hm). rewrite Hd.
        apply orb_true_iff. right. apply IH. eauto.
Qed.

Lemma test_nil (r : re) :
  test r EmptyString = matchesPrefix r EmptyString.
Proof. simpl. now rewrite !orb_false_r. Qed.

Lemma test_cons (r : re) (c : ascii) (s : string) :
  test r (String c s) = matchesPrefix r (String c s) || test r s.
Proof. reflexivity. Qed.

(** [test r s] holds exactly when some substring of [s] is matched by
    [r]. *)
Lemma test_spec (r : re) (s : string) :
  test r s = true
  <-> exists pre mid post, s = (pre ++ mid ++ post)%string /\ matches r mid.
Proof.
  induction s as [|c s IH].
  - rewrite test_nil, matchesPrefix_spec. split.
    + intros (mid & post & E & H). now exists EmptyString, mid, post.
    + intros (pre & mid & post & E & H). symmetry in E.
      apply append_empty in E as [-> E].
      apply append_empty in E as [-> ->].
      now exists EmptyString, EmptyString.
  - rewrite test_cons, orb_true_iff, matchesPrefix_spec, IH. split.
    + intros [(mid & post & E & H)|(pre & mid & post & -> & H)].
      * now exists EmptyString, mid, post.
      * now exists (String c pre), mid, post.
    + intros (pre & mid & post & E & H). destruct pre as [|d pre]; simpl in E.
      * left. eauto.
      * injection E as <- ->. right. eauto.
Qed.

(** The pattern of the specification's example. *)
Example code_42 :
  option_map (fun r => test r "code: 42") (compile "code: \d+") = Some true
  /\ option_map (fun r => test r "code: x") (compile "code: \d+") = Some false
  /\ compile "(" = None
  /\ compile "a)" = None
  /\ compile "*a" = None.
Proof. repeat split. Qed.

End RegExpFragmentFacts.

(** * Further properties of the [scenario run] action *)

(** ** The plugin list handed to the runtime factory *)

Lemma uniqueFrom_In (xs seen : list string) (x : string) :
  In x (uniqueFrom seen xs)
  <-> In x xs /\ existsb (String.eqb x) seen = false.
Proof.
  revert seen. induction xs as [|y xs IH]; intros seen; simpl.
  - tauto.
  - destruct (existsb (String.eqb y) seen) eqn:Hy.
    + rewrite IH. split; [tauto|]. intros [[->|H] Hx]; [congruence|tauto].
    + simpl. rewrite IH. simpl.
      destruct (String.eqb_spec x y) as [->|Hxy]; simpl.
      * split; [auto|]. intros _. now left.
      * split; [intros [->|H]; [congruence|tauto]|].
        intros [[->|H] Hx]; [congruence|tauto].
Qed.

Lemma uniqueFrom_NoDup (xs seen : list string) : NoDup (uniqueFrom seen xs).
Proof.
  revert seen. induction xs as [|y xs IH]; intros seen; simpl.
  - constructor.
  - destruct (existsb (String.eqb y) seen); [apply IH|].
    constructor; [|apply IH].
    rewrite uniqueFrom_In. simpl. rewrite String.eqb_refl.
    intros [_ H]. discriminate.
Qed.

Lemma uniqueFrom_ext (xs s1 s2 : list string) :
  (forall x, existsb (String.eqb x) s1 = existsb (String.eqb x) s2) ->
  uniqueFrom s1 xs = uniqueFrom s2 xs.
Proof.
  revert s1 s2. induction xs as [|y xs IH]; intros s1 s2 H; simpl;
    [reflexivity|].
  rewrite (H y). destruct (existsb (String.eqb y) s2) eqn:Hy.
  - now apply IH.
  - f_equal. apply IH. intros x. simpl. now rewrite H.
Qed.

Lemma uniqueFrom_app (a b seen : list string) :
  uniqueFrom seen (a ++ b)
  = uniqueFrom seen a ++ uniqueFrom (a ++ seen) b.
Proof.
  revert seen. induction a as [|x a IH]; intros seen; simpl; [reflexivity|].
  destruct (existsb (String.eqb x) seen) eqn:Hx.
  - rewrite IH. f_equal. apply uniqueFrom_ext. intros y. simpl.
    rewrite !existsb_app.
    destruct (String.eqb_spec y x) as [->|]; simpl; [|reflexivity].
    rewrite Hx. now rewrite orb_true_r.
  - simpl. rewrite IH. f_equal. f_equal. apply uniqueFrom_ext. intros y.
    simpl. rewrite !existsb_app. simpl.
    destruct (String.eqb y x); destruct (existsb (String.eqb y) a);
      reflexivity.
Qed.

Lemma uniqueFrom_NoDup_filter (b seen : list string) :
  NoDup b ->
  uniqueFrom seen b
  = filter (fun d => negb (existsb (String.eqb d) seen)) b.
Proof.
  intros Hb. revert seen. induction Hb as [|x b Hx Hb IH]; intros seen; simpl;
    [reflexivity|].
  destruct (existsb (String.eqb x) seen) eqn:E; simpl; [apply IH|].
  f_equal. rewrite IH. apply filter_ext_in. intros d Hd. simpl.
  destruct (String.eqb_spec d x) as [->|]; [contradiction|reflexivity].
Qed.

Lemma scenarioPlugins_In (scenario : Scenario) (p : string) :
  In p (scenarioPlugins scenario)
  <-> exists ps pl, plugins scenario = Some ps /\ In pl ps
                    /\ plugin_enabled pl = true /\ plugin_name pl = p.
Proof.
  unfold scenarioPlugins. destruct (plugins scenario) as [ps|]; simpl.
  - rewrite in_map_iff. split.
    + intros (pl & Hn & Hin). apply filter_In in Hin as [Hin He].
      exists ps, pl. auto.
    + intros (ps' & pl & E & Hin & He & Hn). injection E as <-.
      exists pl. split; [exact Hn|]. apply filter_In. auto.
  - split; [tauto|]. intros (ps & pl & E & _). discriminate.
Qed.

(** The plugin list has no duplicates; it holds exactly the four default
    plugins and the names of the scenario's plugins that are not
    disabled; the scenario's plugins come first, in their order, then
    the default plugins the scenario does not name, in their order. *)
Theorem finalPlugins_unique_with_defaults (scenario : Scenario) :
  NoDup (finalPlugins scenario)
  /\ (forall p,
        In p (finalPlugins scenario)
        <-> In p defaultPlugins
            \/ exists ps pl, plugins scenario = Some ps /\ In pl ps
                             /\ plugin_enabled pl = true
                             /\ plugin_name pl = p)
  /\ finalPlugins scenario
     = uniqueFrom [] (scenarioPlugins scenario)
       ++ filter (fun d => negb (existsb (String.eqb d)
                                         (scenarioPlugins scenario)))
                 defaultPlugins.
Proof.
  unfold finalPlugins. split; [apply uniqueFrom_NoDup|]. split.
  - intros p. rewrite uniqueFrom_In, in_app_iff, scenarioPlugins_In.
    simpl. tauto.
  - rewrite uniqueFrom_app, app_nil_r. f_equal.
    apply uniqueFrom_NoDup_filter.
    repeat constructor; simpl; intuition discriminate.
Qed.

Lemma finalPlugins_unique_with_defaults_witness :
  let scenario :=
    {| plugins := Some [ PluginConfig "@elizaos/plugin-discord" None;
                         PluginConfig "@elizaos/plugin-twitter" (Some false) ];
       environment_type := "local"; setup_mocks := None; run := [];
       judgment_strategy := None |} in
  In "@elizaos/plugin-discord" (finalPlugins scenario)
  /\ ~ In "@elizaos/plugin-twitter" (finalPlugins scenario).
Proof.
  intros scenario.
  destruct (finalPlugins_unique_with_defaults scenario) as (_ & Hin & _).
  split.
  - apply Hin. right.
    exists [ PluginConfig "@elizaos/plugin-discord" None;
             PluginConfig "@elizaos/plugin-twitter" (Some false) ],
           (PluginConfig "@elizaos/plugin-discord" None).
    simpl. auto.
  - intros H. apply Hin in H as [H|(ps & pl & E & Hpl & He & Hn)].
    + simpl in H. intuition discriminate.
    + injection E as <-. simpl in Hpl.
      destruct Hpl as [<-|[<-|[]]]; simpl in *; discriminate.
Defined.

Example finalPlugins_example :
  finalPlugins
    {| plugins := Some [ PluginName "@elizaos/plugin-openai";
                         PluginConfig "@elizaos/plugin-discord" None;
                         PluginConfig "@elizaos/plugin-twitter" (Some false);
                         PluginConfig "@elizaos/plugin-e2b" (Some false) ];
       environment_type := "local"; setup_mocks := None; run := [];
       judgment_strategy := None |}
  = [ "@elizaos/plugin-openai"; "@elizaos/plugin-discord";
      "@elizaos/plugin-sql"; "@elizaos/plugin-bootstrap";
      "@elizaos/plugin-e2b" ].
Proof. reflexivity. Qed.

(** ** Scenario files and plugin lists that are refused *)

Lemma bind_exit {A B} (m : M A) (k : A -> M B) (s s' : Vars) (c : nat) :
  m s = (Exit c, s') -> bind m k s = (Exit c, s').
Proof. intros H. unfold bind. now rewrite H. Qed.

Lemma bind_throw {A B} (m : M A) (k : A -> M B) (s s' : Vars) (e : Error) :
  m s = (Throw e, s') -> bind m k s = (Throw e, s').
Proof. intros H. unfold bind. now rewrite H. Qed.

Lemma forEach_emit {A} (f : A -> Event) (xs : list A) (s : Vars) :
  exists s',
    forEach (fun x => emit (f x)) xs s = (Normal tt, s')
    /\ trace s' = trace s ++ map f xs
    /\ locals s' = locals s.
Proof.
  revert s. induction xs as [|x xs IH]; intros s; simpl.
  - exists s. rewrite app_nil_r. auto.
  - destruct (IH (add_event (f x) s)) as (s' & E & Ht & Hl).
    exists s'. split; [exact E|]. split; [|exact Hl].
    rewrite Ht. simpl. now rewrite <- app_assoc.
Qed.

(** When the scenario file is missing, cannot be read or parsed, or
    fails validation, the action exits with code 1 having done nothing
    but log errors: no reporter, runtime, provider or mock exists. *)
Theorem unloadable_scenario_exits_1 (w : World) (filePath : string)
    (live : bool) :
  (forall scenario, scenarioFile w filePath <> FileValid scenario) ->
  fst (action w filePath live) = Exit 1
  /\ trace (snd (action w filePath live)) <> []
  /\ forallb isLogError (trace (snd (action w filePath live))) = true
  /\ locals (snd (action w filePath live)) = locals initialVars.
Proof.
  intros H.
  unfold action, tryCatchFinally, tryBlock, prepareAndRun, bind, loadScenario.
  destruct (scenarioFile w filePath) as [|e| |scenario] eqn:E; simpl.
  - repeat split. discriminate.
  - repeat split. discriminate.
  - repeat split. discriminate.
  - now elim (H scenario).
Qed.

Lemma unloadable_scenario_exits_1_witness :
  let w := Examples.world FileMissing (Ok Examples.withRuntime)
             (Ok tt) (Ok []) in
  fst (action w "missing.scenario.yaml" false) = Exit 1
  /\ trace (snd (action w "missing.scenario.yaml" false)) <> []
  /\ forallb isLogError (trace (snd (action w "missing.scenario.yaml" false)))
     = true
  /\ locals (snd (action w "missing.scenario.yaml" false)) = locals initialVars.
Proof.
  apply (unloadable_scenario_exits_1
           (Examples.world FileMissing (Ok Examples.withRuntime)
              (Ok tt) (Ok []))
           "missing.scenario.yaml" false).
  intros scenario. discriminate.
Defined.

(** When the plugin parser finds the scenario's plugins invalid, the
    action exits with code 1 after logging each of the parser's errors
    in order; the parser is the only collaborator it has called. *)
Theorem invalid_plugins_exit_1 (w : World) (filePath : string) (live : bool)
    (scenario : Scenario) (p : Plugin) (ps : list Plugin)
    (pluginResult : PluginResult) :
  scenarioFile w filePath = FileValid scenario ->
  plugins scenario = Some (p :: ps) ->
  PluginParser_parseAndValidate w (p :: ps) = Ok pluginResult ->
  valid pluginResult = false ->
  fst (action w filePath live) = Exit 1
  /\ trace (snd (action w filePath live))
     = ParseAndValidate (p :: ps)
       :: LogError "Plugin validation failed:"
       :: map (fun error => LogError ("  - " ++ error)) (errors pluginResult).
Proof.
  intros Hfile Hps Hparse Hvalid.
  assert (Hload : loadScenario w filePath initialVars
                  = (Normal scenario, initialVars)).
  { unfold loadScenario. now rewrite Hfile. }
  destruct (forEach_emit (fun error => LogError ("  - " ++ error))
              (errors pluginResult)
              (add_event (LogError "Plugin validation failed:")
                 (add_event (ParseAndValidate (p :: ps)) initialVars)))
    as (s' & Heach & Htrace & _).
  assert (Hplug : parsePlugins w scenario initialVars = (Exit 1, s')).
  { unfold parsePlugins. rewrite Hps, Hparse.
    erewrite bind_normal; [|reflexivity].
    rewrite Hvalid. cbn [negb].
    erewrite bind_normal; [|reflexivity].
    erewrite bind_normal; [|exact Heach].
    reflexivity. }
  assert (Htry : tryBlock w filePath live initialVars = (Exit 1, s')).
  { unfold tryBlock, prepareAndRun. apply bind_exit.
    rewrite (bind_normal _ _ _ _ _ Hload). now apply bind_exit. }
  rewrite (action_when_try_exits _ _ _ _ _ Htry). simpl.
  split; [reflexivity|]. rewrite Htrace. reflexivity.
Qed.

Lemma invalid_plugins_exit_1_witness :
  let scenario :=
    {| plugins := Some [PluginName "not-a-plugin"];
       environment_type := "local"; setup_mocks := None; run := [];
       judgment_strategy := Some "all_pass" |} in
  let w :=
    {| RegExp := RegExpFragment.re;
       RegExp_new := RegExpFragment.compile;
       RegExp_test := RegExpFragment.test;
       scenarioFile := fun _ => FileValid scenario;
       PluginParser_parseAndValidate :=
         fun _ => Ok {| valid := false;
                        errors := ["Invalid plugin name"; "Unknown plugin"];
                        warnings := [] |};
       createScenarioServerAndAgent := fun _ => Ok Examples.withRuntime;
       runtime_getService := fun _ => None;
       service_stop := Ok tt;
       runtime_close := Ok tt;
       server_stop := Ok tt;
       MockEngine_applyMocks := fun _ => Ok tt;
       MockEngine_revertMocks := Ok tt;
       provider_setup := fun _ _ => Ok tt;
       provider_run := fun _ _ => Ok [];
       provider_teardown := fun _ => Ok tt;
       EvaluationEngine_runEvaluations := fun _ _ => Ok [] |} in
  fst (action w "plugins.scenario.yaml" false) = Exit 1
  /\ trace (snd (action w "plugins.scenario.yaml" false))
     = [ ParseAndValidate [PluginName "not-a-plugin"];
         LogError "Plugin validation failed:";
         LogError "  - Invalid plugin name";
         LogError "  - Unknown plugin" ].
Proof.
  intros scenario w.
  apply (invalid_plugins_exit_1 w "plugins.scenario.yaml" false scenario
           (PluginName "not-a-plugin") []
           {| valid := false;
              errors := ["Invalid plugin name"; "Unknown plugin"];
              warnings := [] |}); reflexivity.
Defined.

(** ** Which provider is created *)

Ltac providerAllowed_side :=
  solve [ exact Logic.I
        | intros; apply allEvents_add; [reflexivity|assumption]
        | intros; apply allEvents_add; [|assumption];
          unfold providerAllowed, hasService;
          repeat match goal with
                 | H : String.eqb _ _ = _ |- _ => rewrite H
                 end;
          destruct (runtime_getService _ "e2b"); simpl;
          rewrite ?orb_true_r; reflexivity
        | intros ? HI; exact HI ].

(** Whatever happens in a run, the sandboxed provider is created only
    for a scenario of type [e2b] whose runtime has the [e2b] service,
    and the local provider only for a scenario of type [local], or of
    type [e2b] when the runtime lacks the service. *)
Theorem provider_matches_environment (w : World) (filePath : string)
    (live : bool) (scenario : Scenario) :
  scenarioFile w filePath = FileValid scenario ->
  forallb (providerAllowed w scenario) (trace (snd (action w filePath live)))
  = true.
Proof.
  intros Hfile.
  apply (action_keeps (allEvents (providerAllowed w scenario))).
  - reflexivity.
  - intros msg s. now apply allEvents_add.
  - unfold tryBlock, prepareAndRun.
    apply triple_bind_any.
    + eapply triple_bind.
      { apply loadScenario_triple; [|exact Logic.I].
        intros msg s. now apply allEvents_add. }
      intros sc Hsc. rewrite Hfile in Hsc. injection Hsc as <-.
      unfold parsePlugins, startReporter, selectProvider,
        createServerAndAgent, newProvider, initMocks, setupAndRun,
        reportExecutionResult.
      repeat (triple_step; try providerAllowed_side).
    + intros [sc results]. unfold evaluate, judge.
      repeat (triple_step; try providerAllowed_side).
      * apply triple_runtimeLoop. intros. now apply allEvents_add.
      * apply triple_liftResult_any.
  - unfold finallyBlock, revertMocksIfApplied, teardownProvider,
      shutdownRuntime, stopCreatedServer, reportAndExit.
    repeat (triple_step; try providerAllowed_side).
Qed.

Lemma provider_matches_environment_witness :
  forallb (providerAllowed Examples.allSucceeds Examples.mockedScenario)
    (trace (snd (action Examples.allSucceeds "mocked.scenario.yaml" false)))
  = true.
Proof.
  apply (provider_matches_environment Examples.allSucceeds
           "mocked.scenario.yaml" false Examples.mockedScenario).
  reflexivity.
Defined.

(** For a scenario of type [e2b], once the runtime factory has returned
    a runtime, the provider is the sandboxed one when the runtime has
    the [e2b] service and the local one otherwise; it is built on the
    server and agent the factory returned, and the factory has been
    called once, with the final plugin list. *)
Theorem e2b_falls_back_to_local (w : World) (scenario : Scenario)
    (created : Created) (rt : Runtime) (s : Vars) :
  environment_type scenario = "e2b" ->
  createScenarioServerAndAgent w (finalPlugins scenario) = Ok created ->
  c_runtime created = Some rt ->
  let chosen :=
    if hasService w "e2b"
    then E2BEnvironmentProvider rt (c_server created) (c_agentId created)
    else LocalEnvironmentProvider (c_server created) (c_agentId created) in
  exists s',
    selectProvider w scenario s = (Normal tt, s')
    /\ provider s' = Some chosen
    /\ runtime s' = Some rt
    /\ trace s'
       = trace s ++ [ CreateScenarioServerAndAgent (finalPlugins scenario);
                      NewProvider chosen ].
Proof.
  intros Htype Hcreated Hrt chosen.
  unfold selectProvider. rewrite Htype. cbn [String.eqb Ascii.eqb Bool.eqb andb].
  unfold createServerAndAgent. rewrite Hcreated.
  unfold bind, call, emit, update, read, ret, newProvider. simpl.
  rewrite Hrt. unfold bind, emit, update. simpl.
  eexists. split; [reflexivity|]. subst chosen. unfold hasService.
  destruct (runtime_getService w "e2b"); simpl;
    rewrite <- !app_assoc; repeat split; exact Hrt.
Qed.

Lemma e2b_falls_back_to_local_witness :
  exists s',
    selectProvider Examples.allSucceeds
      (Examples.scenarioWith "e2b" None [] "all_pass") initialVars
    = (Normal tt, s')
    /\ provider s'
       = Some (LocalEnvironmentProvider (Some ServerHandle)
                 (Some AgentIdHandle))
    /\ runtime s' = Some RuntimeHandle
    /\ trace s'
       = [ CreateScenarioServerAndAgent defaultPlugins;
           NewProvider (LocalEnvironmentProvider (Some ServerHandle)
                          (Some AgentIdHandle)) ].
Proof.
  apply (e2b_falls_back_to_local Examples.allSucceeds
           (Examples.scenarioWith "e2b" None [] "all_pass")
           Examples.withRuntime RuntimeHandle initialVars); reflexivity.
Defined.

Lemma withoutProvider_add (e : Event) (s : Vars) :
  beforeProvider e = true -> withoutProvider s ->
  withoutProvider (add_event e s).
Proof.
  intros He (Ht & Hr & Hp). repeat split; auto. now apply allEvents_add.
Qed.

Ltac withoutProvider_side :=
  solve [ exact Logic.I | reflexivity
        | intros; apply withoutProvider_add; [reflexivity|assumption]
        | intros ? HI; exact HI ].

(** For a scenario of type [e2b], when the runtime factory gives no
    runtime (or throws), the action exits with code 1 without creating a
    provider: it has called nothing but the plugin parser, the
    reporter's start, the runtime factory and the error log. *)
Theorem e2b_without_runtime_exits_1 (w : World) (filePath : string)
    (live : bool) (scenario : Scenario) :
  scenarioFile w filePath = FileValid scenario ->
  environment_type scenario = "e2b" ->
  (forall ps c, createScenarioServerAndAgent w ps = Ok c ->
                c_runtime c = None) ->
  fst (action w filePath live) = Exit 1
  /\ forallb beforeProvider (trace (snd (action w filePath live))) = true
  /\ provider (snd (action w filePath live)) = None.
Proof.
  intros Hfile Htype Hno.
  destruct (action_exits_1 withoutProvider w filePath live)
    as (Hexit & Ht & _ & Hp); [| | |auto].
  - repeat split.
  - intros msg s. now apply withoutProvider_add.
  - unfold tryBlock, prepareAndRun.
    eapply triple_bind with (P := fun _ => False); [|intros ? []].
    eapply triple_bind.
    { apply loadScenario_triple; [|reflexivity].
      intros msg s. now apply withoutProvider_add. }
    intros sc Hsc. rewrite Hfile in Hsc. injection Hsc as <-.
    apply triple_bind_any.
    { unfold parsePlugins. repeat (triple_step; try withoutProvider_side). }
    intros _. apply triple_bind_any.
    { unfold startReporter. repeat (triple_step; try withoutProvider_side). }
    intros _.
    eapply triple_bind with (P := fun _ => False); [|intros ? []].
    unfold selectProvider. rewrite Htype.
    cbn [String.eqb Ascii.eqb Bool.eqb andb].
    apply triple_bind_any.
    { unfold createServerAndAgent.
      apply triple_bind_call; [withoutProvider_side|].
      intros c Hc. apply triple_update; [|exact Logic.I].
      intros s (Ht & Hr & Hp). repeat split; auto.
      simpl. exact (Hno _ _ Hc). }
    intros _. apply triple_bind_read. intros s0 (Ht & Hr & Hp).
    rewrite Hr. apply triple_throw.
Qed.

Lemma e2b_without_runtime_exits_1_witness :
  let w := Examples.world
             (FileValid (Examples.scenarioWith "e2b" None [] "all_pass"))
             (Ok Examples.withoutRuntime) (Ok tt) (Ok []) in
  fst (action w "e2b.scenario.yaml" false) = Exit 1
  /\ forallb beforeProvider (trace (snd (action w "e2b.scenario.yaml" false)))
     = true
  /\ provider (snd (action w "e2b.scenario.yaml" false)) = None.
Proof.
  apply (e2b_without_runtime_exits_1
           (Examples.world
              (FileValid (Examples.scenarioWith "e2b" None [] "all_pass"))
              (Ok Examples.withoutRuntime) (Ok tt) (Ok []))
           "e2b.scenario.yaml" false
           (Examples.scenarioWith "e2b" None [] "all_pass")).
  - reflexivity.
  - reflexivity.
  - intros ps c H. injection H as <-. reflexivity.
Defined.

(** ** A mock that cannot be applied *)

Lemma notSetUp_add (e : Event) (s : Vars) :
  beforeSetup e = true -> notSetUp s -> notSetUp (add_event e s).
Proof.
  intros He (Ht & Hp). split; [now apply allEvents_add|exact Hp].
Qed.

Ltac notSetUp_side :=
  solve [ exact Logic.I | reflexivity
        | intros; apply notSetUp_add; [reflexivity|assumption]
        | intros ? HI; exact HI ].

Lemma selectProvider_notSetUp (w : World) (scenario : Scenario) :
  (forall ps c, createScenarioServerAndAgent w ps = Ok c ->
                c_runtime c <> None) ->
  triple notSetUp (selectProvider w scenario) (fun _ => True) (eq 1).
Proof.
  intros Hrt s (Ht & Hp).
  assert (Hadd : forall e s', beforeSetup e = true ->
                   allEvents beforeSetup s' ->
                   allEvents beforeSetup (add_event e s')).
  { intros. now apply allEvents_add. }
  unfold selectProvider, createServerAndAgent, newProvider,
    bind, call, emit, update, read, ret, throw, process_exit.
  destruct (String.eqb (environment_type scenario) "e2b");
    [|destruct (String.eqb (environment_type scenario) "local");
      [destruct (server s), (runtime s) as [rt|] eqn:Hr, (agentId s)|]];
    try (destruct (createScenarioServerAndAgent w (finalPlugins scenario))
           as [c|err] eqn:Hc;
         [destruct (c_runtime c) as [rt'|] eqn:Hr';
          [|now elim (Hrt _ _ Hc)]|]);
    unfold notSetUp; simpl; rewrite ?Hr, ?Hr'; simpl; repeat split; auto;
    try discriminate; try (intros Hnone; congruence);
    repeat (apply Hadd;
            [first [ reflexivity
                   | destruct (runtime_getService w "e2b"); reflexivity ]|]);
    assumption.
Qed.

(** When [applyMocks] throws for the mocks a scenario declares (no
    [--live], a runtime factory that always gives a runtime), the run
    ends with exit code 1 before the environment is set up: [setup] and
    [run] of the provider are never called. *)
Theorem failed_mock_aborts_before_setup (w : World) (filePath : string)
    (scenario : Scenario) (mocks : list Mock) (e : Error) :
  scenarioFile w filePath = FileValid scenario ->
  setup_mocks scenario = Some mocks ->
  MockEngine_applyMocks w mocks = Raise e ->
  (forall ps c, createScenarioServerAndAgent w ps = Ok c ->
                c_runtime c <> None) ->
  fst (action w filePath false) = Exit 1
  /\ forallb beforeSetup (trace (snd (action w filePath false))) = true.
Proof.
  intros Hfile Hmocks Happly Hrt.
  destruct (action_exits_1 notSetUp w filePath false) as (Hexit & Ht & _);
    [| | |auto].
  - split; [reflexivity|auto].
  - intros msg s. now apply notSetUp_add.
  - unfold tryBlock, prepareAndRun.
    eapply triple_bind with (P := fun _ => False); [|intros ? []].
    eapply triple_bind.
    { apply loadScenario_triple; [|reflexivity].
      intros msg s. now apply notSetUp_add. }
    intros sc Hsc. rewrite Hfile in Hsc. injection Hsc as <-.
    apply triple_bind_any.
    { unfold parsePlugins. repeat (triple_step; try notSetUp_side). }
    intros _. apply triple_bind_any.
    { unfold startReporter. repeat (triple_step; try notSetUp_side). }
    intros _. apply triple_bind_any.
    { now apply selectProvider_notSetUp. }
    intros _ s (Ht & Hp).
    destruct (runtime s) as [rt|] eqn:Hr.
    + assert (E : initMocks w false scenario s
                  = (Throw e,
                     add_event (ApplyMocks mocks)
                       (set_mockEngine (Some (MockEngineFor rt))
                          (add_event NewMockEngine s)))).
      { unfold initMocks, bind, read. simpl. rewrite Hr, Hmocks.
        unfold call, bind, emit, update. simpl. now rewrite Happly. }
      rewrite (bind_throw _ _ _ _ _ E). simpl.
      split; [|exact Logic.I]. split; [|intros Hn; simpl in Hn; congruence].
      now repeat apply allEvents_add.
    + assert (E : initMocks w false scenario s = (Normal tt, s)).
      { unfold initMocks, bind, read. simpl. now rewrite Hr. }
      rewrite (bind_normal _ _ _ _ _ E).
      assert (E2 : exists err, setupAndRun w scenario s = (Throw err, s)).
      { unfold setupAndRun, bind, read. simpl. rewrite (Hp eq_refl).
        eexists. reflexivity. }
      destruct E2 as [err E2]. rewrite (bind_throw _ _ _ _ _ E2). simpl.
      split; [|exact Logic.I]. split; auto.
Qed.

Lemma failed_mock_aborts_before_setup_witness :
  let w :=
    {| RegExp := RegExpFragment.re;
       RegExp_new := RegExpFragment.compile;
       RegExp_test := RegExpFragment.test;
       scenarioFile := fun _ => FileValid Examples.mockedScenario;
       PluginParser_parseAndValidate :=
         fun _ => Ok {| valid := true; errors := []; warnings := [] |};
       createScenarioServerAndAgent := fun _ => Ok Examples.withRuntime;
       runtime_getService := fun _ => None;
       service_stop := Ok tt;
       runtime_close := Ok tt;
       server_stop := Ok tt;
       MockEngine_applyMocks :=
         fun _ => Raise (Failure "Service not found: github-service");
       MockEngine_revertMocks := Ok tt;
       provider_setup := fun _ _ => Ok tt;
       provider_run := fun _ _ => Ok [];
       provider_teardown := fun _ => Ok tt;
       EvaluationEngine_runEvaluations := fun _ _ => Ok [] |} in
  fst (action w "mocked.scenario.yaml" false) = Exit 1
  /\ forallb beforeSetup (trace (snd (action w "mocked.scenario.yaml" false)))
     = true.
Proof.
  intros w.
  apply (failed_mock_aborts_before_setup w "mocked.scenario.yaml"
           Examples.mockedScenario [Examples.someMock]
           (Failure "Service not found: github-service")).
  - reflexivity.
  - reflexivity.
  - reflexivity.
  - intros ps c H. injection H as <-. discriminate.
Defined.

(** ** Cleanup and exit codes *)

Lemma completed_run_reverts_once_before_teardown_witness :
  exists before after,
    trace (snd (action Examples.allSucceeds "mocked.scenario.yaml" false))
    = before ++ RevertMocks :: after
    /\ existsb isRevertMocks before = false
    /\ existsb isTeardown before = false
    /\ existsb isRevertMocks after = false.
Proof.
  apply (completed_run_reverts_once_before_teardown Examples.allSucceeds
           "mocked.scenario.yaml" false
           (snd (tryBlock Examples.allSucceeds "mocked.scenario.yaml" false
                   initialVars))).
  - vm_compute. reflexivity.
  - vm_compute. reflexivity.
Defined.

Lemma tryBlock_exits_with_1 (w : World) (filePath : string) (live : bool) :
  triple (fun _ => True) (tryBlock w filePath live) (fun _ => True) (eq 1).
Proof.
  unfold tryBlock, prepareAndRun, loadScenario, parsePlugins, startReporter,
    selectProvider, createServerAndAgent, newProvider, initMocks, setupAndRun,
    reportExecutionResult.
  apply triple_bind_any.
  - repeat (triple_step; try solve [exact Logic.I | reflexivity | auto]).
  - intros [scenario results]. unfold evaluate, judge.
    repeat (triple_step; try solve [exact Logic.I | reflexivity | auto]).
    + apply triple_runtimeLoop. auto.
    + apply triple_liftResult_any.
Qed.

Lemma finallyBlock_exits_with_status (w : World) (s : Vars) (c : nat) :
  fst (finallyBlock w s) = Exit c ->
  c = if finalStatus s then 0 else 1.
Proof.
  assert (T : triple (fun s' => finalStatus s' = finalStatus s)
                (finallyBlock w) (fun _ => True)
                (fun c => c = if finalStatus s then 0 else 1)).
  { unfold finallyBlock, revertMocksIfApplied, teardownProvider,
      shutdownRuntime, stopCreatedServer, reportAndExit.
    repeat (triple_step;
            try solve [ exact Logic.I
                      | intros ? HI; exact HI
                      | match goal with
                        | H : finalStatus _ = finalStatus _ |- _ =>
                            rewrite H; reflexivity
                        end ]). }
  destruct (T s eq_refl) as [_ HP]. intros E. rewrite E in HP. exact HP.
Qed.

(** The action exits with code 0 only when the scenario was loaded, the
    run block returned, the evaluations completed and the judgment on
    their results is true; and it never exits with a code other than 0
    or 1. *)
Theorem exit_0_only_after_passing_judgment (w : World) (filePath : string)
    (live : bool) :
  (fst (action w filePath live) = Exit 0 ->
   exists scenario results s1 allEvaluationResults s2,
     prepareAndRun w filePath live initialVars
     = (Normal (scenario, results), s1)
     /\ evaluate w scenario results s1 = (Normal allEvaluationResults, s2)
     /\ applyJudgment (judgment_strategy scenario) allEvaluationResults
        = true)
  /\ (forall c, fst (action w filePath live) = Exit c -> c = 0 \/ c = 1).
Proof.
  destruct (tryBlock w filePath live initialVars) as [[[]|e|c] s3] eqn:Htry.
  - rewrite (action_when_try_completes _ _ _ _ Htry).
    assert (Hjudged : exists scenario results s1 allEvaluationResults s2,
               prepareAndRun w filePath live initialVars
               = (Normal (scenario, results), s1)
               /\ evaluate w scenario results s1
                  = (Normal allEvaluationResults, s2)
               /\ finalStatus s3
                  = applyJudgment (judgment_strategy scenario)
                                  allEvaluationResults).
    { unfold tryBlock in Htry. unfold bind at 1 in Htry.
      destruct (prepareAndRun w filePath live initialVars)
        as [[[scenario results]|e|c] s1] eqn:Hprep; try discriminate.
      simpl in Htry. unfold bind at 1 in Htry.
      destruct (evaluate w scenario results s1) as [[all|e|c] s2] eqn:Heval;
        try discriminate.
      exists scenario, results, s1, all, s2.
      split; [reflexivity|]. split; [exact Heval|].
      unfold judge, bind, read, emit, update in Htry.
      destruct (reporter s2); injection Htry as <-; reflexivity. }
    split.
    + intros Hexit. apply finallyBlock_exits_with_status in Hexit.
      destruct Hjudged as (scenario & results & s1 & all & s2 & Hp & He & Hs).
      exists scenario, results, s1, all, s2. repeat split; auto.
      rewrite <- Hs. destruct (finalStatus s3); [reflexivity|discriminate].
    + intros c Hexit. apply finallyBlock_exits_with_status in Hexit.
      destruct (finalStatus s3); auto.
  - rewrite (action_when_try_throws _ _ _ _ _ Htry). simpl.
    split; [discriminate|]. intros c H. injection H as <-. auto.
  - rewrite (action_when_try_exits _ _ _ _ _ Htry). simpl.
    destruct (tryBlock_exits_with_1 w filePath live initialVars Logic.I)
      as [_ HX].
    rewrite Htry in HX. simpl in HX. subst c.
    split; [discriminate|]. intros c H. injection H as <-. auto.
Qed.

Lemma exit_0_only_after_passing_judgment_witness :
  let w := Examples.basic [Examples.stringContains "OK"] "all_pass" "OK" in
  (exists scenario results s1 allEvaluationResults s2,
     prepareAndRun w "ok.scenario.yaml" false initialVars
     = (Normal (scenario, results), s1)
     /\ evaluate w scenario results s1 = (Normal allEvaluationResults, s2)
     /\ applyJudgment (judgment_strategy scenario) allEvaluationResults
        = true)
  /\ (0 = 0 \/ 0 = 1).
Proof.
  intros w. split.
  - apply (proj1 (exit_0_only_after_passing_judgment w
                    "ok.scenario.yaml" false)).
    vm_compute. reflexivity.
  - apply (proj2 (exit_0_only_after_passing_judgment w
                    "ok.scenario.yaml" false) 0).
    vm_compute. reflexivity.
Defined.

(** When the [try] block has completed and [revertMocks] throws, or
    [teardown] throws after the mocks were reverted, the exception
    leaves the action: there is no exit code, the runtime and the
    server are not shut down and no final result is reported. *)
Theorem cleanup_exception_escapes (w : World) (filePath : string)
    (live : bool) (s : Vars) :
  tryBlock w filePath live initialVars = (Normal tt, s) ->
  (forall m e,
     mockEngine s = Some m ->
     MockEngine_revertMocks w = Raise e ->
     action w filePath live = (Throw e, add_event RevertMocks s))
  /\ (forall p e,
        provider s = Some p ->
        mockEngine s = None \/ MockEngine_revertMocks w = Ok tt ->
        provider_teardown w p = Raise e ->
        fst (action w filePath live) = Throw e
        /\ trace (snd (action w filePath live))
           = trace s ++ match mockEngine s with
                        | Some _ => [RevertMocks; Teardown]
                        | None => [Teardown]
                        end).
Proof.
  intros Htry. rewrite (action_when_try_completes _ _ _ _ Htry).
  unfold finallyBlock, revertMocksIfApplied, teardownProvider.
  split.
  - intros m e Hm Hrev. unfold bind, read, call, emit, update. simpl.
    now rewrite Hm, Hrev.
  - intros p e Hp Hrev Htear. unfold bind, read, call, emit, update. simpl.
    destruct (mockEngine s) as [m|]; simpl.
    + destruct Hrev as [Hrev|Hrev]; [discriminate|]. rewrite Hrev. simpl.
      rewrite Hp, Htear. simpl. split; [reflexivity|].
      now rewrite <- app_assoc.
    + rewrite Hp, Htear. simpl. auto.
Qed.

Lemma cleanup_exception_escapes_witness :
  let w :=
    {| RegExp := RegExpFragment.re;
       RegExp_new := RegExpFragment.compile;
       RegExp_test := RegExpFragment.test;
       scenarioFile := fun _ => FileValid Examples.mockedScenario;
       PluginParser_parseAndValidate :=
         fun _ => Ok {| valid := true; errors := []; warnings := [] |};
       createScenarioServerAndAgent := fun _ => Ok Examples.withRuntime;
       runtime_getService := fun _ => None;
       service_stop := Ok tt;
       runtime_close := Ok tt;
       server_stop := Ok tt;
       MockEngine_applyMocks := fun _ => Ok tt;
       MockEngine_revertMocks := Raise (Failure "cannot restore");
       provider_setup := fun _ _ => Ok tt;
       provider_run := fun _ _ => Ok [];
       provider_teardown := fun _ => Raise (Failure "sandbox is gone");
       EvaluationEngine_runEvaluations := fun _ _ => Ok [] |} in
  fst (action w "mocked.scenario.yaml" false)
  = Throw (Failure "cannot restore")
  /\ fst (action w "mocked.scenario.yaml" true)
     = Throw (Failure "sandbox is gone").
Proof.
  intros w. split.
  - assert (Htry : tryBlock w "mocked.scenario.yaml" false initialVars
                   = (Normal tt,
                      snd (tryBlock w "mocked.scenario.yaml" false
                             initialVars)))
      by (vm_compute; reflexivity).
    rewrite (proj1 (cleanup_exception_escapes w "mocked.scenario.yaml"
                      false _ Htry)
               (MockEngineFor RuntimeHandle) (Failure "cannot restore")
               ltac:(vm_compute; reflexivity) eq_refl).
    reflexivity.
  - assert (Htry : tryBlock w "mocked.scenario.yaml" true initialVars
                   = (Normal tt,
                      snd (tryBlock w "mocked.scenario.yaml" true
                             initialVars)))
      by (vm_compute; reflexivity).
    apply (proj2 (cleanup_exception_escapes w "mocked.scenario.yaml"
                    true _ Htry)
             (LocalEnvironmentProvider (Some ServerHandle)
                (Some AgentIdHandle))
             (Failure "sandbox is gone")).
    + vm_compute. reflexivity.
    + left. vm_compute. reflexivity.
    + reflexivity.
Defined.

(** Errors while stopping the [e2b] service, closing the runtime or
    stopping the server are swallowed: these two steps of the cleanup
    always complete and change no variable of the action.  When stopping
    the [e2b] service throws, the runtime is not closed. *)
Theorem shutdown_errors_are_swallowed (w : World) (s : Vars) :
  (exists s', shutdownRuntime w s = (Normal tt, s') /\ locals s' = locals s)
  /\ (exists s', stopCreatedServer w s = (Normal tt, s')
                 /\ locals s' = locals s)
  /\ (forall rt service e,
        runtime s = Some rt ->
        runtime_getService w "e2b" = Some service ->
        svc_hasStop service = true ->
        service_stop w = Raise e ->
        shutdownRuntime w s = (Normal tt, add_event StopService s)).
Proof.
  split; [apply shutdownRuntime_completes|].
  split; [apply stopCreatedServer_completes|].
  intros rt service e Hrt Hservice Hstop Hraise.
  unfold shutdownRuntime, tryIgnore, bind, read, call, emit, update. simpl.
  now rewrite Hrt, Hservice, Hstop, Hraise.
Qed.

Lemma shutdown_errors_are_swallowed_witness :
  let w :=
    {| RegExp := RegExpFragment.re;
       RegExp_new := RegExpFragment.compile;
       RegExp_test := RegExpFragment.test;
       scenarioFile := fun _ => FileMissing;
       PluginParser_parseAndValidate :=
         fun _ => Ok {| valid := true; errors := []; warnings := [] |};
       createScenarioServerAndAgent := fun _ => Ok Examples.withRuntime;
       runtime_getService := fun _ => Some {| svc_hasStop := true |};
       service_stop := Raise (Failure "sandbox timeout");
       runtime_close := Ok tt;
       server_stop := Ok tt;
       MockEngine_applyMocks := fun _ => Ok tt;
       MockEngine_revertMocks := Ok tt;
       provider_setup := fun _ _ => Ok tt;
       provider_run := fun _ _ => Ok [];
       provider_teardown := fun _ => Ok tt;
       EvaluationEngine_runEvaluations := fun _ _ => Ok [] |} in
  let s := set_created Examples.withRuntime initialVars in
  shutdownRuntime w s = (Normal tt, add_event StopService s).
Proof.
  intros w s.
  apply (proj2 (proj2 (shutdown_errors_are_swallowed w s))
           RuntimeHandle {| svc_hasStop := true |}
           (Failure "sandbox timeout")); reflexivity.
Defined.

(** ** The evaluation loops *)

Lemma skipn_nth_error {A} (l : list A) (i : nat) (x : A) :
  nth_error l i = Some x -> skipn i l = x :: skipn (S i) l.
Proof.
  revert i. induction l as [|y l IH]; intros [|i] H; simpl in *;
    try discriminate.
  - now injection H as ->.
  - now apply IH.
Qed.

Lemma combine_nil_r {A B} (l : list A) : combine l (@nil B) = [].
Proof. now destruct l. Qed.

Lemma evaluateAll_ok (w : World) (evs : list Evaluation)
    (result : ExecutionResult) :
  forall acc rs,
    evaluateAll w evs result acc = Ok rs ->
    exists new,
      rs = acc ++ new
      /\ Forall2 (fun ev res => evaluateBasic w ev result = Ok res) evs new.
Proof.
  induction evs as [|ev evs IH]; intros acc rs H; simpl in H.
  - injection H as <-. exists []. rewrite app_nil_r. auto.
  - destruct (evaluateBasic w ev result) as [res|e] eqn:E; [|discriminate].
    simpl in H. destruct (IH _ _ H) as (new & -> & Hnew).
    exists (res :: new). rewrite <- app_assoc. auto.
Qed.

Lemma basicLoop_ok (w : World) (steps : list Step)
    (rest : list ExecutionResult) :
  forall i acc rs,
    basicLoop w steps i rest acc = Ok rs ->
    exists new,
      rs = acc ++ new
      /\ Forall2 (fun p res => evaluateBasic w (fst p) (snd p) = Ok res)
                 (pairsOf (skipn i steps) rest) new
      /\ List.length rest <= List.length (skipn i steps).
Proof.
  induction rest as [|result rest IH]; intros i acc rs H; simpl in H.
  - injection H as <-. exists []. rewrite app_nil_r.
    unfold pairsOf. rewrite combine_nil_r. simpl. repeat split; auto. lia.
  - destruct (nth_error steps i) as [step|] eqn:Hstep; [|discriminate].
    rewrite (skipn_nth_error _ _ _ Hstep).
    assert (Hpairs : pairsOf (step :: skipn (S i) steps) (result :: rest)
                     = map (fun ev => (ev, result)) (stepEvaluations step)
                       ++ pairsOf (skipn (S i) steps) rest) by reflexivity.
    rewrite Hpairs. unfold stepEvaluations.
    destruct (evaluations step) as [[|ev evs]|].
    + destruct (IH _ _ _ H) as (new & -> & Hnew & Hlen).
      exists new. split; [reflexivity|]. split; [exact Hnew|].
      cbn [List.length]. lia.
    + destruct (evaluateAll w (ev :: evs) result acc) as [acc'|e] eqn:E;
        [|discriminate].
      simpl in H. destruct (evaluateAll_ok _ _ _ _ _ E) as (new1 & -> & H1).
      destruct (IH _ _ _ H) as (new2 & -> & H2 & Hlen).
      exists (new1 ++ new2). rewrite <- app_assoc.
      split; [reflexivity|]. split; [|cbn [List.length]; lia].
      apply Forall2_app; [|exact H2].
      clear -H1. induction H1; simpl; constructor; auto.
    + destruct (IH _ _ _ H) as (new & -> & Hnew & Hlen).
      exists new. split; [reflexivity|]. split; [exact Hnew|].
      cbn [List.length]. lia.
Qed.

(** Without a runtime, when the evaluation produces a result list, the
    list holds one result per declared evaluator of the steps that have
    an execution result, in step order and within a step in declaration
    order, each being the result of that evaluator on the execution
    result of its own step; and there are no more execution results than
    steps. *)
Theorem basic_results_follow_steps (w : World) (steps : list Step)
    (results : list ExecutionResult) (rs : list EvaluationResult) :
  basicEvaluations w steps results = Ok rs ->
  Forall2 (fun p res => evaluateBasic w (fst p) (snd p) = Ok res)
          (pairsOf steps results) rs
  /\ List.length rs = List.length (pairsOf steps results)
  /\ List.length results <= List.length steps.
Proof.
  intros H. destruct (basicLoop_ok _ _ _ _ _ _ H) as (new & -> & Hnew & Hlen).
  simpl in *. repeat split; auto.
  symmetry. exact (Forall2_length Hnew).
Qed.

Lemma basic_results_follow_steps_witness :
  let steps :=
    [ {| st_input := "one";
         evaluations := Some [Examples.stringContains "a";
                              Examples.llmJudge] |};
      {| st_input := "two"; evaluations := None |};
      {| st_input := "three";
         evaluations := Some [Examples.regexMatch "\d"] |} ] in
  let results :=
    [Examples.output "abc"; Examples.output "def"; Examples.output "42"] in
  exists rs,
    basicEvaluations Examples.goodPattern steps results = Ok rs
    /\ Forall2 (fun p res =>
                  evaluateBasic Examples.goodPattern (fst p) (snd p) = Ok res)
               (pairsOf steps results) rs
    /\ List.length rs = 3.
Proof.
  intros steps results.
  destruct (basicEvaluations Examples.goodPattern steps results)
    as [rs|e] eqn:E; [|vm_compute in E; discriminate].
  exists rs. split; [reflexivity|].
  destruct (basic_results_follow_steps Examples.goodPattern steps results
              rs E) as (H1 & H2 & _).
  split; [exact H1|]. rewrite H2. reflexivity.
Defined.

Lemma rbind_ext {A B} (r : Result A) (f g : A -> Result B) :
  (forall a, f a = g a) -> rbind r f = rbind r g.
Proof. intros H. destruct r; simpl; auto. Qed.

Lemma basicLoop_firstn (w : World) (steps : list Step)
    (rest : list ExecutionResult) :
  forall i acc,
    basicLoop w steps i rest acc
    = basicLoop w (firstn (i + List.length rest) steps) i rest acc.
Proof.
  induction rest as [|result rest IH]; intros i acc; simpl; [reflexivity|].
  rewrite nth_error_firstn.
  replace (Nat.ltb i (i + S (List.length rest))) with true
    by (symmetry; apply Nat.ltb_lt; lia).
  replace (i + S (List.length rest)) with (S i + List.length rest) by lia.
  destruct (nth_error steps i) as [step|]; [|reflexivity].
  destruct (evaluations step) as [[|ev evs]|]; try apply IH.
  apply rbind_ext. intros acc'. apply IH.
Qed.

(** Without a runtime, the steps beyond the execution results the
    provider returned play no part in the evaluation: their evaluators
    are never applied. *)
Theorem steps_without_result_are_not_evaluated (w : World)
    (steps : list Step) (results : list ExecutionResult) :
  basicEvaluations w steps results
  = basicEvaluations w (firstn (List.length results) steps) results.
Proof. unfold basicEvaluations. apply (basicLoop_firstn w steps results 0). Qed.

Lemma runtimeLoop_normal (w : World) (steps : list Step)
    (rest : list ExecutionResult) :
  forall i acc s rs s',
    runtimeLoop w steps i rest acc s = (Normal rs, s') ->
    exists chunks,
      Forall2 (fun d chunk =>
                 EvaluationEngine_runEvaluations w (fst d) (snd d) = Ok chunk)
              (delegated (skipn i steps) rest) chunks
      /\ rs = acc ++ List.concat chunks
      /\ trace s'
         = trace s ++ map (fun d => RunEvaluations (fst d) (snd d))
                          (delegated (skipn i steps) rest)
      /\ List.length rest <= List.length (skipn i steps).
Proof.
  induction rest as [|result rest IH]; intros i acc s rs s' H; simpl in H.
  - injection H as <- <-. exists []. unfold delegated.
    rewrite combine_nil_r. simpl. rewrite !app_nil_r.
    repeat split; auto. lia.
  - destruct (nth_error steps i) as [step|] eqn:Hstep; [|discriminate].
    rewrite (skipn_nth_error _ _ _ Hstep).
    assert (Hd : delegated (step :: skipn (S i) steps) (result :: rest)
                 = match stepEvaluations step with
                   | [] => []
                   | evs => [(evs, result)]
                   end ++ delegated (skipn (S i) steps) rest)
      by reflexivity.
    rewrite Hd. unfold stepEvaluations.
    destruct (evaluations step) as [[|ev evs]|].
    + destruct (IH _ _ _ _ _ H) as (chunks & Hc & -> & Ht & Hlen).
      exists chunks. split; [exact Hc|]. split; [reflexivity|].
      split; [exact Ht|]. cbn [List.length]. lia.
    + unfold bind, call, emit, update in H.
      destruct (EvaluationEngine_runEvaluations w (ev :: evs) result)
        as [chunk|e] eqn:E; [|discriminate].
      simpl in H.
      destruct (IH _ _ _ _ _ H) as (chunks & Hc & -> & Ht & Hlen).
      exists (chunk :: chunks).
      split; [constructor; auto|].
      split; [simpl; now rewrite <- app_assoc|].
      split; [|cbn [List.length]; lia].
      rewrite Ht. simpl. now rewrite <- app_assoc.
    + destruct (IH _ _ _ _ _ H) as (chunks & Hc & -> & Ht & Hlen).
      exists chunks. split; [exact Hc|]. split; [reflexivity|].
      split; [exact Ht|]. cbn [List.length]. lia.
Qed.

(** With a runtime, when the evaluation completes, the evaluation engine
    has been called exactly once for each step that declares evaluators
    and has an execution result, in step order, with that step's
    execution result; a step without evaluators is not passed to it.
    The accumulated results are what the engine returned, concatenated
    in that order. *)
Theorem engine_called_once_per_evaluated_step (w : World)
    (scenario : Scenario) (results : list ExecutionResult) (rt : Runtime)
    (s s' : Vars) (rs : list EvaluationResult) :
  runtime s = Some rt ->
  evaluate w scenario results s = (Normal rs, s') ->
  exists chunks,
    Forall2 (fun d chunk =>
               EvaluationEngine_runEvaluations w (fst d) (snd d) = Ok chunk)
            (delegated (run scenario) results) chunks
    /\ rs = List.concat chunks
    /\ trace s'
       = trace s
         ++ NewEvaluationEngine
            :: map (fun d => RunEvaluations (fst d) (snd d))
                   (delegated (run scenario) results)
    /\ List.length results <= List.length (run scenario).
Proof.
  intros Hrt H. unfold evaluate, bind, read in H. rewrite Hrt in H.
  unfold emit, update in H.
  destruct (runtimeLoop_normal _ _ _ _ _ _ _ _ H)
    as (chunks & Hc & -> & Ht & Hlen).
  exists chunks. simpl in *. repeat split; auto.
  rewrite Ht. simpl. now rewrite <- app_assoc.
Qed.

Lemma engine_called_once_per_evaluated_step_witness :
  let scenario :=
    {| plugins := None; environment_type := "local"; setup_mocks := None;
       run := [ {| st_input := "one";
                   evaluations := Some [Examples.llmJudge] |};
                {| st_input := "two"; evaluations := Some [] |};
                {| st_input := "three";
                   evaluations := Some [Examples.stringContains "x"] |} ];
       judgment_strategy := Some "all_pass" |} in
  let results :=
    [Examples.output "a"; Examples.output "b"; Examples.output "c"] in
  let s := set_created Examples.withRuntime initialVars in
  exists chunks,
    Forall2 (fun d chunk =>
               EvaluationEngine_runEvaluations Examples.allSucceeds
                 (fst d) (snd d) = Ok chunk)
            (delegated (run scenario) results) chunks
    /\ trace (snd (evaluate Examples.allSucceeds scenario results s))
       = [ NewEvaluationEngine;
           RunEvaluations [Examples.llmJudge] (Examples.output "a");
           RunEvaluations [Examples.stringContains "x"] (Examples.output "c") ].
Proof.
  intros scenario results s.
  destruct (engine_called_once_per_evaluated_step Examples.allSucceeds
              scenario results RuntimeHandle s
              (snd (evaluate Examples.allSucceeds scenario results s)) [])
    as (chunks & Hc & _ & Ht & _).
  - reflexivity.
  - vm_compute. reflexivity.
  - exists chunks. split; [exact Hc|]. rewrite Ht. reflexivity.
Defined.

(** When the provider returns no execution result, no evaluator is
    applied, with or without a runtime, whatever the steps declare: the
    accumulated results are empty, so a run whose cleanup does not
    throw exits with code 0 under [all_pass] and with code 1 under any
    other strategy. *)
Theorem no_results_no_evaluation (w : World) (filePath : string)
    (live : bool) (scenario : Scenario) (s1 : Vars) :
  prepareAndRun w filePath live initialVars = (Normal (scenario, []), s1) ->
  MockEngine_revertMocks w = Ok tt ->
  (forall p, provider_teardown w p = Ok tt) ->
  fst (evaluate w scenario [] s1) = Normal []
  /\ (judgment_strategy scenario = Some "all_pass" ->
      fst (action w filePath live) = Exit 0)
  /\ (judgment_strategy scenario <> Some "all_pass" ->
      fst (action w filePath live) = Exit 1).
Proof.
  intros Hprep Hrev Htear.
  assert (Heval : exists s2, evaluate w scenario [] s1 = (Normal [], s2)).
  { unfold evaluate, bind, read, emit, update. simpl.
    destruct (runtime s1); eexists; reflexivity. }
  destruct Heval as [s2 Heval].
  pose proof (judged_run_exit_code _ _ _ _ _ _ _ _ Hprep Heval Hrev Htear)
    as Hexit.
  split; [now rewrite Heval|]. split.
  - intros Hs. rewrite Hexit, Hs. reflexivity.
  - intros Hs. rewrite Hexit.
    destruct (judgment_strategy scenario) as [str|]; [|reflexivity].
    unfold applyJudgment.
    destruct (String.eqb_spec str "all_pass") as [->|_]; [now elim Hs|].
    destruct (String.eqb str "any_pass"); reflexivity.
Qed.

Lemma no_results_no_evaluation_witness :
  let w :=
    Examples.world
      (FileValid (Examples.scenarioWith "local" None
                    [Examples.stringContains "never printed"] "all_pass"))
      (Ok Examples.withRuntime) (Ok tt) (Ok []) in
  fst (action w "empty.scenario.yaml" false) = Exit 0.
Proof.
  intros w.
  refine (proj1 (proj2 (no_results_no_evaluation w "empty.scenario.yaml" false
                          (Examples.scenarioWith "local" None
                             [Examples.stringContains "never printed"]
                             "all_pass")
                          (snd (prepareAndRun w "empty.scenario.yaml" false
                                  initialVars))
                          _ _ _)) _).
  - vm_compute. reflexivity.
  - reflexivity.
  - intros p. reflexivity.
  - reflexivity.
Defined.

(** * Properties of the [scenario matrix] action *)

Module MatrixActionFacts.

Import Matrix MatrixAction.

(** ** Exit codes *)

(** The matrix action always ends by exiting the process, with code 0
    or 1; the code is 0 exactly when the configuration file is valid,
    the three functions of the matrix schema return, and the base
    scenario file exists, with or without [--dry-run]. *)
Theorem matrix_exit_code (mw : MatrixWorld) (configPath : string)
    (options : Options) :
  (snd (action mw configPath options) = Exit 0
   \/ snd (action mw configPath options) = Exit 1)
  /\ (snd (action mw configPath options) = Exit 0
      <-> exists config totalCombinations totalRuns combinations,
            configFile mw configPath = ConfigValid config
            /\ totalCombinationsOf mw config = Ok totalCombinations
            /\ totalRunsOf mw config = Ok totalRuns
            /\ baseScenarioExists mw (base_scenario config) = true
            /\ combinationsOf mw config = Ok combinations).
Proof.
  unfold action, tryBlock.
  destruct (configFile mw configPath) as [|e|e|errors|config] eqn:Hfile;
    simpl;
    try (split; [now right|];
         split; [discriminate|];
         intros (c & tc & tr & cs & H & _); discriminate).
  destruct (totalCombinationsOf mw config) as [tc|e] eqn:Htc; simpl;
    [|split; [now right|]; split; [discriminate|];
      intros (c & tc & tr & cs & H & H' & _);
      injection H as <-; congruence].
  destruct (totalRunsOf mw config) as [tr|e] eqn:Htr; simpl;
    [|split; [now right|]; split; [discriminate|];
      intros (c & tc' & tr & cs & H & _ & H' & _);
      injection H as <-; congruence].
  destruct (baseScenarioExists mw (base_scenario config)) eqn:Hbase; simpl;
    [|split; [now right|]; split; [discriminate|];
      intros (c & tc' & tr' & cs & H & _ & _ & H' & _);
      injection H as <-; congruence].
  destruct (combinationsOf mw config) as [cs|e] eqn:Hcs; simpl;
    [|split; [now right|]; split; [discriminate|];
      intros (c & tc' & tr' & cs & H & _ & _ & _ & H');
      injection H as <-; congruence].
  destruct (dryRun options); simpl; (split; [now left|]);
    (split; [intros _; exists config, tc, tr, cs; auto|reflexivity]).
Qed.

Lemma matrix_exit_code_witness :
  snd (action (sampleWorld (sampleConfig 2)) "matrix.yaml"
         {| dryRun := false; parallel := "1"; filter := None;
            verbose := false |})
  = Exit 0.
Proof.
  apply (proj2 (matrix_exit_code (sampleWorld (sampleConfig 2)) "matrix.yaml"
                  {| dryRun := false; parallel := "1"; filter := None;
                     verbose := false |})).
  exists (sampleConfig 2), 12, 24,
         (generateParameterCombinations (sampleConfig 2)).
  repeat split.
Defined.

(** ** The filter *)

(** A non-empty [--filter] keeps exactly the combinations whose
    serialized form contains the pattern as a substring, so never more
    than were generated; an absent or empty filter keeps them all. *)
Theorem filter_keeps_matching_combinations
    (stringify : ParameterCombination -> string)
    (combinations : list ParameterCombination) :
  (forall pat combo,
     pat <> EmptyString ->
     (In combo (filteredCombinations stringify (Some pat) combinations)
      <-> In combo combinations
          /\ exists pre post, stringify combo = (pre ++ pat ++ post)%string))
  /\ (forall filter,
        List.length (filteredCombinations stringify filter combinations)
        <= List.length combinations)
  /\ filteredCombinations stringify None combinations = combinations
  /\ filteredCombinations stringify (Some EmptyString) combinations
     = combinations.
Proof.
  split; [|split; [|split; reflexivity]].
  - intros pat combo Hpat. destruct pat as [|c pat]; [now elim Hpat|].
    unfold filteredCombinations. rewrite filter_In, includes_spec.
    reflexivity.
  - intros [[|c pat]|]; simpl; auto. apply filter_length_le.
Qed.

Lemma filter_keeps_matching_combinations_witness :
  In [("character.llm.model", LitString "b"); ("run[0].input", LitNumber 2)]
     (filteredCombinations showCombination (Some "model=b")
        (generateParameterCombinations (sampleConfig 2)))
  <-> In [("character.llm.model", LitString "b");
          ("run[0].input", LitNumber 2)]
         (generateParameterCombinations (sampleConfig 2))
      /\ exists pre post,
           showCombination [("character.llm.model", LitString "b");
                            ("run[0].input", LitNumber 2)]
           = (pre ++ "model=b" ++ post)%string.
Proof.
  apply (proj1 (filter_keeps_matching_combinations showCombination
                  (generateParameterCombinations (sampleConfig 2)))).
  discriminate.
Defined.

(** ** What a successful analysis logs *)

Lemma In_numbered {A B} (f : nat -> A -> B) (xs : list A) (y : B) :
  forall i,
    In y (numbered f i xs)
    <-> exists j x, nth_error xs j = Some x /\ y = f (S (i + j)) x.
Proof.
  induction xs as [|x xs IH]; intros i; simpl.
  - split; [tauto|]. intros ([|j] & x & H & _); discriminate.
  - rewrite IH. split.
    + intros [<-|(j & x' & Hj & ->)].
      * exists 0, x. rewrite Nat.add_0_r. auto.
      * exists (S j), x'. rewrite Nat.add_succ_r. auto.
    + intros ([|j] & x' & Hj & ->); simpl in Hj.
      * injection Hj as <-. rewrite Nat.add_0_r. now left.
      * right. exists j, x'. rewrite Nat.add_succ_r. auto.
Qed.

Lemma successful_log (mw : MatrixWorld) (configPath : string)
    (options : Options) (config : MatrixConfig)
    (totalCombinations totalRuns : nat)
    (combinations : list ParameterCombination) :
  configFile mw configPath = ConfigValid config ->
  totalCombinationsOf mw config = Ok totalCombinations ->
  totalRunsOf mw config = Ok totalRuns ->
  baseScenarioExists mw (base_scenario config) = true ->
  combinationsOf mw config = Ok combinations ->
  let kept :=
    List.length (filteredCombinations (stringify mw) (filter options)
                   combinations) in
  fst (action mw configPath options)
  = analysisLines config totalCombinations totalRuns
    ++ (if verbose options || dryRun options
        then numbered Combination 0 combinations else [])
    ++ filterLines options kept
    ++ (if Nat.ltb 50 totalRuns then [LargeMatrixWarning totalRuns] else [])
    ++ [if dryRun options then DryRunComplete
        else ExecutionPlan (parallel options) kept
               (kept * runs_per_combination config)].
Proof.
  intros Hfile Htc Htr Hbase Hcs kept.
  unfold action, tryBlock. rewrite Hfile, Htc, Htr, Hbase, Hcs. simpl.
  destruct (dryRun options); reflexivity.
Qed.

Lemma analysisLines_In (config : MatrixConfig) (tc tr : nat) (y : LogLine) :
  In y (analysisLines config tc tr) ->
  (exists a b c, y = Analysis a b c) \/ (exists i p n, y = Axis i p n).
Proof.
  unfold analysisLines. simpl. intros [<-|H]; [left; eauto|].
  apply In_numbered in H as (j & axis & _ & ->). right. eauto.
Qed.

Lemma filterLines_In (options : Options) (kept : nat) (y : LogLine) :
  In y (filterLines options kept) -> exists pat, y = Filtered pat kept.
Proof.
  unfold filterLines. destruct (filter options) as [[|c pat]|]; simpl;
    try tauto.
  intros [<-|[]]. eauto.
Qed.

(** In a successful analysis the warning about a large matrix is logged
    exactly when the total number of runs exceeds 50; it shows that
    total, which does not depend on the filter. *)
Theorem large_matrix_warning_above_50 (mw : MatrixWorld)
    (configPath : string) (options : Options) (config : MatrixConfig)
    (totalCombinations totalRuns : nat)
    (combinations : list ParameterCombination) :
  configFile mw configPath = ConfigValid config ->
  totalCombinationsOf mw config = Ok totalCombinations ->
  totalRunsOf mw config = Ok totalRuns ->
  baseScenarioExists mw (base_scenario config) = true ->
  combinationsOf mw config = Ok combinations ->
  forall n,
    In (LargeMatrixWarning n) (fst (action mw configPath options))
    <-> n = totalRuns /\ 50 < totalRuns.
Proof.
  intros Hfile Htc Htr Hbase Hcs n.
  rewrite (successful_log _ _ _ _ _ _ _ Hfile Htc Htr Hbase Hcs).
  rewrite !in_app_iff. split.
  - intros [H|[H|[H|[H|H]]]].
    + apply analysisLines_In in H as [(a & b & c & H)|(i & p & k & H)];
        discriminate.
    + destruct (verbose options || dryRun options); [|destruct H].
      apply In_numbered in H as (j & x & _ & H). discriminate.
    + apply filterLines_In in H as (pat & H). discriminate.
    + destruct (Nat.ltb_spec 50 totalRuns) as [Hlt|_]; [|destruct H].
      destruct H as [H|[]]. injection H as <-. auto.
    + destruct (dryRun options); destruct H as [H|[]]; discriminate.
  - intros [-> Hlt]. right. right. right. left.
    apply Nat.ltb_lt in Hlt. rewrite Hlt. now left.
Qed.

Lemma large_matrix_warning_above_50_witness :
  In (LargeMatrixWarning 60)
     (fst (action (sampleWorld (sampleConfig 5)) "matrix.yaml"
             {| dryRun := true; parallel := "1";
                filter := Some "model=b"; verbose := false |}))
  <-> 60 = 60 /\ 50 < 60.
Proof.
  apply (large_matrix_warning_above_50 (sampleWorld (sampleConfig 5))
           "matrix.yaml"
           {| dryRun := true; parallel := "1";
              filter := Some "model=b"; verbose := false |}
           (sampleConfig 5) 12 60
           (generateParameterCombinations (sampleConfig 5)));
    reflexivity.
Defined.



(** In a successful analysis the generated combinations are listed
    exactly in verbose or dry-run mode: all of them, numbered from 1 in
    generation order, whatever the filter keeps. *)
Theorem combinations_listed_before_filtering (mw : MatrixWorld)
    (configPath : string) (options : Options) (config : MatrixConfig)
    (totalCombinations totalRuns : nat)
    (combinations : list ParameterCombination) :
  configFile mw configPath = ConfigValid config ->
  totalCombinationsOf mw config = Ok totalCombinations ->
  totalRunsOf mw config = Ok totalRuns ->
  baseScenarioExists mw (base_scenario config) = true ->
  combinationsOf mw config = Ok combinations ->
  forall index combo,
    In (Combination index combo) (fst (action mw configPath options))
    <-> verbose options || dryRun options = true
        /\ exists j, index = S j /\ nth_error combinations j = Some combo.
Proof.
  intros Hfile Htc Htr Hbase Hcs index combo.
  rewrite (successful_log _ _ _ _ _ _ _ Hfile Htc Htr Hbase Hcs).
  rewrite !in_app_iff. split.
  - intros [H|[H|[H|[H|H]]]].
    + apply analysisLines_In in H as [(a & b & c & H)|(i & q & n & H)];
        discriminate.
    + destruct (verbose options || dryRun options); [|destruct H].
      apply In_numbered in H as (j & x & Hj & H). injection H as -> ->.
      split; [reflexivity|]. exists j. auto.
    + apply filterLines_In in H as (pat & H). discriminate.
    + destruct (Nat.ltb 50 totalRuns); [|destruct H].
      destruct H as [H|[]]. discriminate.
    + destruct (dryRun options); destruct H as [H|[]]; discriminate.
  - intros (Hmode & j & -> & Hj). right. left. rewrite Hmode.
    apply In_numbered. exists j, combo. auto.
Qed.

Lemma combinations_listed_before_filtering_witness :
  In (Combination 1
        [("character.llm.model", LitString "a"); ("run[0].input", LitNumber 1)])
     (fst (action (sampleWorld (sampleConfig 2)) "matrix.yaml"
             {| dryRun := true; parallel := "1";
                filter := Some "model=b"; verbose := false |}))
  <-> true = true
      /\ exists j,
           1 = S j
           /\ nth_error (generateParameterCombinations (sampleConfig 2)) j
              = Some [("character.llm.model", LitString "a");
                      ("run[0].input", LitNumber 1)].
Proof.
  apply (combinations_listed_before_filtering
           (sampleWorld (sampleConfig 2)) "matrix.yaml"
           {| dryRun := true; parallel := "1";
              filter := Some "model=b"; verbose := false |}
           (sampleConfig 2) 12 24
           (generateParameterCombinations (sampleConfig 2)));
    reflexivity.
Defined.

(** ** Validation errors *)

Lemma append_assoc (a b c : string) :
  ((a ++ b) ++ c)%string = (a ++ b ++ c)%string.
Proof. induction a as [|x a IH]; simpl; [reflexivity|]. now rewrite IH. Qed.

Lemma dotted_nonempty (keys : list string) (key : string) :
  Forall (fun k => k <> EmptyString) (key :: keys) ->
  String.concat "." (key :: keys) <> EmptyString.
Proof.
  intros H. inversion H as [|k ks Hk Hks]; subst.
  destruct key as [|c key]; [now elim Hk|].
  destruct keys; simpl; discriminate.
Qed.

Lemma dotted_snoc (keys : list string) (key : string) :
  Forall (fun k => k <> EmptyString) keys ->
  childPath (String.concat "." keys) key = String.concat "." (keys ++ [key]).
Proof.
  intros H. destruct keys as [|k keys]; [reflexivity|].
  unfold childPath.
  destruct (String.concat "." (k :: keys)) as [|c path] eqn:E;
    [now elim (dotted_nonempty keys k H)|].
  rewrite <- E. clear E H c path.
  revert k. induction keys as [|k' keys IH]; intros k; [reflexivity|].
  change (String.concat "." (k :: k' :: keys))
    with (k ++ "." ++ String.concat "." (k' :: keys))%string.
  change (String.concat "." ((k :: k' :: keys) ++ [key]))
    with (k ++ "." ++ String.concat "." ((k' :: keys) ++ [key]))%string.
  rewrite <- IH. now rewrite !append_assoc.
Qed.

(** The lines [formatErrors] and [formatFields] log, for an object
    reached through non-empty [keys]. *)
Lemma formatErrors_lines (obj : ErrorTree) (keys : list string)
    (Hkeys : Forall (fun k => k <> EmptyString) keys) :
  keysNonEmpty obj = true ->
  formatErrors obj (String.concat "." keys)
  = map (fun ke => ErrorLine ("   " ++ String.concat "." (fst ke)
                              ++ ": " ++ snd ke))
        (errorsOf obj keys)
with formatFields_lines (fields : ErrorFields) (keys : list string)
    (Hkeys : Forall (fun k => k <> EmptyString) keys) :
  fieldsNonEmpty fields = true ->
  formatFields fields (String.concat "." keys)
  = map (fun ke => ErrorLine ("   " ++ String.concat "." (fst ke)
                              ++ ": " ++ snd ke))
        (errorsOfFields fields keys).
Proof.
  - destruct obj as [errs fields]. simpl. intros H.
    rewrite map_app, map_map. simpl. f_equal.
    now apply formatFields_lines.
  - destruct fields as [|key sub rest]; simpl; [reflexivity|].
    intros H. apply andb_true_iff in H as [H Hrest].
    apply andb_true_iff in H as [Hkey Hsub].
    apply negb_true_iff, String.eqb_neq in Hkey.
    rewrite map_app, dotted_snoc by assumption. f_equal.
    + apply formatErrors_lines; [|exact Hsub].
      apply Forall_app. split; [assumption|]. now constructor.
    + now apply formatFields_lines.
Qed.

(** For an error object whose keys are all non-empty, [formatErrors]
    logs every message of the object exactly once, the messages of an
    object before those of the objects nested in it, each on a line that
    names the keys leading to it joined by dots. *)
Theorem formatErrors_logs_every_error (obj : ErrorTree) :
  keysNonEmpty obj = true ->
  formatErrors obj ""
  = map (fun ke => ErrorLine ("   " ++ String.concat "." (fst ke)
                              ++ ": " ++ snd ke))
        (errorsOf obj [])
  /\ List.length (formatErrors obj "") = List.length (errorsOf obj []).
Proof.
  intros H.
  assert (E := formatErrors_lines obj [] (Forall_nil _) H).
  simpl in E. split; [exact E|]. rewrite E. apply List.length_map.
Qed.

Lemma formatErrors_logs_every_error_witness :
  formatErrors sampleErrors ""
  = [ ErrorLine "   matrix: Matrix must have at least one axis";
      ErrorLine "   matrix.0.values: Values must not be empty";
      ErrorLine "   runs_per_combination: Expected number" ]
  /\ List.length (formatErrors sampleErrors "") = 3.
Proof.
  apply (formatErrors_logs_every_error sampleErrors). reflexivity.
Defined.

End MatrixActionFacts.
